(** * paper-feed: the incremental feed-merge pipeline of [get_RSS.py]

    A shallow embedding of the functions of [get_RSS.py] and the properties
    of its text normaliser, query matcher, merge engine, serialiser, feed
    fetcher, history reader and configuration loader.

    Python strings are sequences of Unicode code points; they are modelled
    as lists of code points ([N]).  Sets and dictionaries are stdpp's
    [gset] and [gmap].  What the program takes from outside its own file is
    an input of the model: the case mapping [str.lower], the conversion of
    a parsed date, the clock, what [feedparser.parse] does at each call,
    the environment and the files.  Printing, sleeping and parsing are
    recorded as a trace of events. *)

From Stdlib Require Import ZArith NArith Ascii String Lia.
From stdpp Require Import gmap list sorting.

Local Open Scope N_scope.

(** ** Python strings *)

Abbreviation str := (list N).

(** A string literal of the source, as code points (ASCII literals only). *)
Definition py (s : string) : str :=
  List.map N_of_ascii (list_ascii_of_string s).

(** [s.startswith(p)] *)
Fixpoint startswith (s p : str) : bool :=
  match p, s with
  | [], _ => true
  | _ :: _, [] => false
  | a :: p', b :: s' => (a =? b) && startswith s' p'
  end.

(** [k in s] on strings: [k] occurs in [s] as a contiguous substring. *)
Fixpoint contains (s k : str) : bool :=
  startswith s k ||
  match s with
  | [] => false
  | _ :: s' => contains s' k
  end.

(** [s.replace(old, new)] for a non-empty [old]: the non-overlapping
    occurrences of [old] are replaced from left to right.  [skip] counts
    the characters of the occurrence just found that are still to be
    passed over. *)
Fixpoint str_replace_from (old new : str) (skip : nat) (s : str) : str :=
  match s with
  | [] => []
  | c :: rest =>
      match skip with
      | S k => str_replace_from old new k rest
      | O =>
          if startswith s old
          then new ++ str_replace_from old new (length old - 1) rest
          else c :: str_replace_from old new 0 rest
      end
  end.

Definition str_replace (old new s : str) : str :=
  str_replace_from old new 0 s.

(** [s.split(sep)] for a non-empty [sep]; [cur] is the piece being read,
    in reverse. *)
Fixpoint str_split_from (sep : str) (skip : nat) (cur : str) (s : str)
  : list str :=
  match s with
  | [] => [rev cur]
  | c :: rest =>
      match skip with
      | S k => str_split_from sep k cur rest
      | O =>
          if startswith s sep
          then rev cur :: str_split_from sep (length sep - 1) [] rest
          else str_split_from sep 0 (c :: cur) rest
      end
  end.

Definition str_split (sep s : str) : list str :=
  str_split_from sep 0 [] s.

(** [str.isspace] on one code point: the Unicode white-space characters. *)
Definition is_space (c : N) : bool :=
  ((9 <=? c) && (c <=? 13)) || ((28 <=? c) && (c <=? 32)) ||
  (c =? 133) || (c =? 160) || (c =? 5760) ||
  ((8192 <=? c) && (c <=? 8202)) || (c =? 8232) || (c =? 8233) ||
  (c =? 8239) || (c =? 8287) || (c =? 12288).

Fixpoint lstrip (s : str) : str :=
  match s with
  | [] => []
  | c :: rest => if is_space c then lstrip rest else s
  end.

Definition rstrip (s : str) : str := rev (lstrip (rev s)).

(** [s.strip()] *)
Definition strip (s : str) : str := rstrip (lstrip s).

(** ** Text normaliser *)

Definition MAX_ITEMS : nat := 1000.

Definition JOURNAL_ABBR_items : list (str * str) :=
  [ (py "ScienceDirect Publication: Medical Image Analysis", py "MedIA");
    (py "ScienceDirect Publication: Pattern Recognition", py "PR");
    (py "ScienceDirect Publication: Knowledge-Based Systems", py "KBS");
    (py "ScienceDirect Publication: Neural Networks", py "NN");
    (py "ScienceDirect Publication: Neurocomputing", py "NC");
    (py "ScienceDirect Publication: Computers in Biology and Medicine",
     py "CBM");
    (py "ScienceDirect Publication: Biomedical Signal Processing and Control",
     py "BSPC");
    (py "ScienceDirect Publication: Artificial Intelligence in Medicine",
     py "AIM");
    (py "ScienceDirect Publication: Engineering Applications of Artificial Intelligence",
     py "EAAI");
    (py "ScienceDirect Publication: Expert Systems with Applications",
     py "ESWA");
    (py "ScienceDirect Publication: Information Fusion", py "IF");
    (py "ScienceDirect Publication: NeuroImage", py "NI");
    (py "IEEE Transactions on Medical Imaging", py "TMI");
    (py "IEEE Transactions on Pattern Analysis and Machine Intelligence",
     py "TPAMI");
    (py "IEEE Transactions on Image Processing", py "TIP");
    (py "IEEE Transactions on Biomedical Engineering", py "TBME");
    (py "IEEE Journal of Biomedical and Health Informatics", py "JBHI");
    (py "Wiley: Medical Physics: Table of Contents", py "MP");
    (py "cs.CV updates on arXiv.org", py "arXiv-CV");
    (py "eess.IV updates on arXiv.org", py "arXiv-IV");
    (py "cs.LG updates on arXiv.org", py "arXiv-ML") ].

Definition JOURNAL_ABBR : gmap (list N) (list N) :=
  list_to_map JOURNAL_ABBR_items.

Definition TOC_SUFFIX : str := py " - new TOC".
Definition SD_PREFIX : str := py "ScienceDirect Publication: ".

Definition get_journal_abbr (journal_name : str) : str :=
  let journal_name := str_replace TOC_SUFFIX [] journal_name in
  match JOURNAL_ABBR !! journal_name with
  | Some abbr => abbr
  | None =>
      let short := str_replace SD_PREFIX [] journal_name in
      if (15 <? length short)%nat then take 15 short else short
  end.

(** The control characters XML 1.0 does not allow:
    [[\x00-\x08\x0b\x0c\x0e-\x1f]]. *)
Definition illegal_xml_char (c : N) : bool :=
  (c <=? 8) || (c =? 11) || (c =? 12) || ((14 <=? c) && (c <=? 31)).

Definition legal_xml_char (c : N) : bool := negb (illegal_xml_char c).

(** [re.sub(illegal_chars, '', text)], after the guard on an empty text. *)
Definition remove_illegal_xml_chars (text : str) : str :=
  match text with
  | [] => []
  | _ => List.filter legal_xml_char text
  end.

(** ** Data model *)

(** An entry dictionary.  ['pub_date'] is a [datetime], modelled as a point
    on the time line; ['is_old'] is a key only the history reader sets. *)
Record Entry := {
  title : str;
  link : str;
  pub_date : Z;
  summary : str;
  journal : str;
  id : str;
  is_old : option bool
}.

(** [time.struct_time] *)
Record struct_time := {
  tm_year : Z; tm_mon : Z; tm_mday : Z; tm_hour : Z; tm_min : Z;
  tm_sec : Z; tm_wday : Z; tm_yday : Z; tm_isdst : Z
}.

(** The result of a call that may raise: the exception's text, or the
    value returned. *)
Inductive outcome (A : Type) : Type :=
| Raised (e : str)
| Returned (a : A).
Arguments Raised {A} e.
Arguments Returned {A} a.

Global Instance outcome_bind : MBind outcome :=
  fun A B f m =>
    match m with
    | Raised e => Raised e
    | Returned a => f a
    end.

(** An entry of a parsed feed, as its [get] sees it: [None] is a missing
    key.  The parsed dates can be present and [None]. *)
Record RawEntry := {
  raw_title : option str;
  raw_link : option str;
  raw_published_parsed : option (option struct_time);
  raw_updated_parsed : option (option struct_time);
  raw_summary : option str;
  raw_description : option str;
  raw_id : option str;
  raw_author : option str
}.

(** What [feedparser.parse] returns: the feed-level title, the [bozo]
    attribute ([True] is [1]) and the entries. *)
Record ParsedFeed := {
  feed_title : option str;
  bozo : option Z;
  entries : list RawEntry
}.

(** What a run does besides computing its result. *)
Inductive event : Type :=
| Print (msg : str)
| Sleep (secs : Z)
| Parse (source : str).

(** An item handed to [rfeed]. *)
Record Item := {
  rss_title : str;
  rss_link : str;
  rss_description : str;
  rss_author : str;
  rss_guid : str;
  rss_pubDate : Z
}.

Definition OUTPUT_FILE : str := py "filtered_feed.xml".

(** ** Sorting: [items.sort(key=lambda x: x['pub_date'], reverse=True)]

    Python's sort is stable, also with [reverse=True]: the result is the
    one arrangement of the items that is descending in [pub_date] and
    keeps items of equal [pub_date] in their input order. *)
Fixpoint insert_desc (x : Entry) (l : list Entry) : list Entry :=
  match l with
  | [] => [x]
  | y :: l' =>
      if (pub_date x <? pub_date y)%Z then y :: insert_desc x l'
      else x :: l
  end.

Definition sort_desc (items : list Entry) : list Entry :=
  foldr insert_desc [] items.

Section Pipeline.

(** [str.lower] *)
Variable lower : str -> str.

(** [datetime.datetime.fromtimestamp(time.mktime(t))], which raises on
    a time out of the platform's range. *)
Variable mktime : struct_time -> outcome Z.

(** ** Query matcher *)

Definition text_to_search (entry : Entry) : str :=
  lower (title entry ++ py " " ++ summary entry).

Definition keywords (query : str) : list str :=
  (fun k => lower (strip k)) <$> str_split (py "AND") query.

(** The inner loop: [match] stays [True] unless a keyword is missing. *)
Fixpoint all_keywords_in (text : str) (kws : list str) : bool :=
  match kws with
  | [] => true
  | keyword :: rest =>
      if negb (contains text keyword) then false
      else all_keywords_in text rest
  end.

Fixpoint match_queries (text : str) (queries : list str) : bool :=
  match queries with
  | [] => false
  | query :: rest =>
      if all_keywords_in text (keywords query) then true
      else match_queries text rest
  end.

Definition match_entry (entry : Entry) (queries : list str) : bool :=
  match_queries (text_to_search entry) queries.

(** ** Dates *)

Definition convert_struct_time_to_datetime (now : Z)
    (t : option struct_time) : outcome Z :=
  match t with
  | None => Returned now
  | Some t => mktime t
  end.

(** ** Feed fetcher *)

Definition fetched_entry (now : Z) (journal_title : str) (entry : RawEntry)
  : outcome Entry :=
  let pub_struct :=
    match raw_published_parsed entry with
    | Some v => v
    | None => default None (raw_updated_parsed entry)
    end in
  pub_date ← convert_struct_time_to_datetime now pub_struct;
  Returned {|
    title := default [] (raw_title entry);
    link := default [] (raw_link entry);
    pub_date := pub_date;
    summary :=
      match raw_summary entry with
      | Some s => s
      | None => default [] (raw_description entry)
      end;
    journal := journal_title;
    id :=
      match raw_id entry with
      | Some i => i
      | None => default [] (raw_link entry)
      end;
    is_old := None
  |}.

(** The loop over [feed.entries]; [now] is the clock, read by position. *)
Fixpoint convert_entries (f : nat -> RawEntry -> outcome Entry) (i : nat)
    (l : list RawEntry) : outcome (list Entry) :=
  match l with
  | [] => Returned []
  | entry :: rest =>
      e ← f i entry;
      es ← convert_entries f (S i) rest;
      Returned (e :: es)
  end.

(** The body of the [try] of one attempt. *)
Definition parse_attempt (now : nat -> Z) (parsed : outcome ParsedFeed)
  : outcome (list Entry) :=
  feed ← parsed;
  let journal_title := default (py "Unknown Journal") (feed_title feed) in
  convert_entries (fun i => fetched_entry (now i) journal_title) 0
    (entries feed).

(** [for attempt in range(retries)], from attempt number [attempt] with
    [remaining] attempts left.  [feedparser_parse k] is what the [k]-th
    call of [feedparser.parse(rss_url)] does. *)
Fixpoint parse_rss_loop (now : nat -> Z)
    (feedparser_parse : nat -> outcome ParsedFeed) (rss_url : str)
    (attempt remaining : nat) : list event * list Entry :=
  match remaining with
  | O => ([], [])
  | S remaining' =>
      match parse_attempt now (feedparser_parse attempt) with
      | Returned entries => ([Parse rss_url], entries)
      | Raised e =>
          let '(trace, entries) :=
            parse_rss_loop now feedparser_parse rss_url (S attempt)
              remaining' in
          (Parse rss_url ::
           Print (py "Error parsing " ++ rss_url ++ py ": " ++ e) ::
           Sleep 2 :: trace, entries)
      end
  end.

(** [retries] is [None] when the caller leaves it to its default. *)
Definition parse_rss (now : nat -> Z)
    (feedparser_parse : nat -> outcome ParsedFeed) (rss_url : str)
    (retries : option Z) : list event * list Entry :=
  let retries := default 3%Z retries in
  let '(trace, entries) :=
    parse_rss_loop now feedparser_parse rss_url 0 (Z.to_nat retries) in
  (Print (py "Fetching: " ++ rss_url ++ py "...") :: trace, entries).

(** ** Existing-output reader *)

Definition existing_entry (now : Z) (entry : RawEntry) : outcome Entry :=
  let pub_struct := default None (raw_published_parsed entry) in
  pub_date ← convert_struct_time_to_datetime now pub_struct;
  Returned {|
    title := default [] (raw_title entry);
    link := default [] (raw_link entry);
    pub_date := pub_date;
    summary := default [] (raw_summary entry);
    journal := default [] (raw_author entry);
    id :=
      match raw_id entry with
      | Some i => i
      | None => default [] (raw_link entry)
      end;
    is_old := Some true
  |}.

Definition CORRUPTED_WARNING : str :=
  py "Warning: Existing XML file might be corrupted. Ignoring old items.".

(** [file_exists] is [os.path.exists(OUTPUT_FILE)]; [parsed] is what
    [feedparser.parse(OUTPUT_FILE)] does. *)
Definition get_existing_items (now : nat -> Z) (file_exists : bool)
    (parsed : outcome ParsedFeed) : list event * list Entry :=
  if negb file_exists then ([], [])
  else
    let start :=
      [Print (py "Loading existing items from " ++ OUTPUT_FILE ++ py "...");
       Parse OUTPUT_FILE] in
    let failed e :=
      [Print (py "Error reading existing file: " ++ e)] in
    match parsed with
    | Raised e => (start ++ failed e, [])
    | Returned feed =>
        let warning :=
          if bool_decide (bozo feed = Some 1%Z)
          then [Print CORRUPTED_WARNING] else [] in
        match convert_entries (fun i => existing_entry (now i)) 0
                (entries feed) with
        | Raised e => (start ++ warning ++ failed e, [])
        | Returned entries => (start ++ warning, entries)
        end
    end.

(** ** Merge engine: the loops of [main] *)

Record MergeState := {
  seen_ids : gset (list N);
  all_entries : list Entry;
  new_count : nat
}.

Definition merge_entry (queries : list str) (st : MergeState)
    (entry : Entry) : MergeState :=
  if bool_decide (id entry ∈ seen_ids st) then st
  else if match_entry entry queries then
    {| seen_ids := {[ id entry ]} ∪ seen_ids st;
       all_entries := all_entries st ++ [entry];
       new_count := S (new_count st) |}
  else st.

Definition merge_init (existing_entries : list Entry) : MergeState :=
  {| seen_ids := list_to_set (id <$> existing_entries);
     all_entries := existing_entries;
     new_count := 0 |}.

(** [fetched] holds what [parse_rss] returned for each source, in the
    order of the sources. *)
Definition merge (existing_entries : list Entry)
    (fetched : list (list Entry)) (queries : list str) : MergeState :=
  foldl (fun st fetched_entries =>
           foldl (merge_entry queries) st fetched_entries)
        (merge_init existing_entries) fetched.

(** ** Feed serialiser *)

(** The items that are rendered: sorted, then [items[:max_items]]. *)
Definition select_items (max_items : nat) (items : list Entry)
  : list Entry :=
  take max_items (sort_desc items).

Definition display_title (item : Entry) : str :=
  if negb (default false (is_old item))
  then py "[" ++ get_journal_abbr (journal item) ++ py "] " ++ title item
  else title item.

Definition render_item (item : Entry) : Item :=
  {| rss_title := remove_illegal_xml_chars (display_title item);
     rss_link := link item;
     rss_description := remove_illegal_xml_chars (summary item);
     rss_author := remove_illegal_xml_chars (journal item);
     rss_guid := id item;
     rss_pubDate := pub_date item |}.

(** The [rss_items] that [generate_rss_xml] hands to [Feed]. *)
Definition generate_rss_xml (items : list Entry) : list Item :=
  render_item <$> select_items MAX_ITEMS items.

(** ** Configuration *)

(** Truth value of a string: non-empty. *)
Definition truthy (s : str) : bool :=
  match s with
  | [] => false
  | _ :: _ => true
  end.

(** The lines of a text file as iteration yields them, each with its
    terminating newline. *)
Fixpoint file_lines_from (cur : str) (s : str) : list str :=
  match s with
  | [] => if truthy cur then [rev cur] else []
  | c :: rest =>
      if c =? 10 then rev (c :: cur) :: file_lines_from [] rest
      else file_lines_from (c :: cur) rest
  end.

Definition file_lines (content : str) : list str :=
  file_lines_from [] content.

Definition stripped_items (pieces : list str) : list str :=
  strip <$> List.filter (fun line => truthy (strip line)) pieces.

(** [environ] is [os.environ]; [files] maps the paths that exist to the
    text of the file. *)
Definition load_config (environ files : gmap (list N) (list N))
    (filename : str) (env_var_name : option str)
  : list event * list str :=
  let from_env :=
    match env_var_name with
    | Some name =>
        if truthy name then
          match environ !! name with
          | Some value => if truthy value then Some (name, value) else None
          | None => None
          end
        else None
    | None => None
    end in
  match from_env with
  | Some (name, content) =>
      ([Print (py "Loading config from environment variable: " ++ name)],
       if contains content [10]
       then stripped_items (str_split [10] content)
       else stripped_items (str_split (py ";") content))
  | None =>
      match files !! filename with
      | Some content =>
          ([Print (py "Loading config from local file: " ++ filename)],
           strip <$>
             List.filter
               (fun line =>
                  truthy (strip line) && negb (startswith line (py "#")))
               (file_lines content))
      | None => ([], [])
      end
  end.

(** ** Entry point *)

(** [fetch i url] is what [parse_rss(url)] returns for the [i]-th source;
    the result is the items written, or [None] when the run stops at the
    configuration check. *)
Definition main (rss_urls queries : list str)
    (existing_entries : list Entry) (fetch : nat -> str -> list Entry)
  : option (list Item) :=
  if negb (bool_decide (rss_urls ≠ [])) || negb (bool_decide (queries ≠ []))
  then None
  else
    Some (generate_rss_xml
            (all_entries
               (merge existing_entries (imap fetch rss_urls) queries))).

End Pipeline.

(** ** Reference definitions, in the words of the specification *)

(** [k] occurs in [t] as a substring. *)
Definition occurs_in (k t : str) : Prop :=
  ∃ pre post, t = pre ++ k ++ post.

(** Some query of the list has all its [AND]-delimited terms, trimmed and
    lowercased, occurring in the lowercased title, a space, and summary. *)
Definition matches_spec (lower : str -> str) (entry : Entry)
    (queries : list str) : Prop :=
  ∃ query, query ∈ queries ∧
    ∀ term, term ∈ str_split (py "AND") query →
      occurs_in (lower (strip term))
                (lower (title entry ++ py " " ++ summary entry)).

Definition strip_trailing (suffix s : str) : str :=
  if startswith (rev s) (rev suffix)
  then take (length s - length suffix) s else s.

Definition strip_leading (prefix s : str) : str :=
  if startswith s prefix then drop (length prefix) s else s.

(** The abbreviation as the specification words it: both markers are
    stripped first, and the cleaned name is the one looked up. *)
Definition abbreviate_spec (source_label : str) : str :=
  let cleaned := strip_leading SD_PREFIX (strip_trailing TOC_SUFFIX source_label) in
  match JOURNAL_ABBR !! cleaned with
  | Some abbr => abbr
  | None => take 15 cleaned
  end.

(** [str.lower] on strings of ASCII characters. *)
Definition ascii_lower (s : str) : str :=
  List.map (fun c => if (65 <=? c) && (c <=? 90) then c + 32 else c) s.

(** [mktime] on a platform where it never raises: seconds of the day. *)
Definition mktime_total (t : struct_time) : outcome Z :=
  Returned (tm_hour t * 3600 + tm_min t * 60 + tm_sec t)%Z.

(** Descending in [pub_date]: every item is at least as recent as all the
    items after it. *)
Definition descending : list Entry → Prop :=
  StronglySorted (λ a b, (pub_date b ≤ pub_date a)%Z).

Definition published_at (t : Z) (l : list Entry) : list Entry :=
  filter (λ e, pub_date e = t) l.

(** The invariant of the merge loops: the identities kept so far are
    pairwise distinct and all recorded in [seen_ids]. *)
Definition merge_inv (st : MergeState) : Prop :=
  NoDup (id <$> all_entries st) ∧
  ∀ i, i ∈ id <$> all_entries st → i ∈ seen_ids st.

(** What one failed attempt does: the parse, the message, the wait. *)
Definition failure_events (rss_url e : str) : list event :=
  [Parse rss_url; Print (py "Error parsing " ++ rss_url ++ py ": " ++ e);
   Sleep 2].

(** The number of parse attempts in a trace. *)
Definition attempts (trace : list event) : nat :=
  length (List.filter (λ ev, match ev with Parse _ => true | _ => false end)
            trace).

(** The time a trace spends sleeping. *)
Definition slept (trace : list event) : Z :=
  foldr (λ ev total, match ev with Sleep secs => secs + total | _ => total end)%Z
    0%Z trace.

(** The identity the fetcher gives an entry: its id, else its link, else
    the empty string. *)
Definition raw_identity (entry : RawEntry) : str :=
  match raw_id entry with
  | Some i => i
  | None => default [] (raw_link entry)
  end.

(** A string that does not start with white space. *)
Definition no_leading_space (s : str) : Prop :=
  match s with
  | [] => True
  | c :: _ => is_space c = false
  end.

(** The separator of a configuration value: the newline when the value
    has one, the semicolon otherwise. *)
Definition config_separator (content : str) : str :=
  if contains content [10] then [10] else py ";".

(** ** Sample inputs *)

(** A fetched entry with the given title and summary. *)
Definition paper (t s : string) : Entry :=
  {| title := py t; link := []; pub_date := 0; summary := py s;
     journal := []; id := []; is_old := None |}.

(** A fetched entry with the given identity and publication time. *)
Definition stamped (i : string) (t : Z) : Entry :=
  {| title := py "Deep Learning Paper"; link := []; pub_date := t;
     summary := []; journal := py "Some Journal"; id := py i;
     is_old := None |}.

(** An item of a previous output, as the feed parser reads it back. *)
Definition stored (i t : string) : RawEntry :=
  {| raw_title := Some (py t); raw_link := Some (py "http://example.org");
     raw_published_parsed := Some None; raw_updated_parsed := None;
     raw_summary := Some []; raw_description := None;
     raw_id := Some (py i); raw_author := Some (py "Some Journal") |}.

(** A previous output the parser flags as ill-formed and still reads one
    item from. *)
Definition recovered_feed : ParsedFeed :=
  {| feed_title := Some (py "My Customized Papers"); bozo := Some 1%Z;
     entries := [stored "A" "[PR] An old paper"] |}.

(** A source that always fails. *)
Definition unreachable (k : nat) : outcome ParsedFeed :=
  Raised (py "timed out").

(** A conversion that raises on a year past 9999. *)
Definition mktime_bounded (t : struct_time) : outcome Z :=
  if (9999 <? tm_year t)%Z then Raised (py "year 10000 is out of range")
  else mktime_total t.

(** An entry of a feed published in the given year. *)
Definition dated (i : string) (year : Z) : RawEntry :=
  {| raw_title := Some (py "Deep Learning Paper"); raw_link := None;
     raw_published_parsed :=
       Some (Some {| tm_year := year; tm_mon := 1; tm_mday := 1;
                     tm_hour := 0; tm_min := 0; tm_sec := 0;
                     tm_wday := 0; tm_yday := 1; tm_isdst := 0 |});
     raw_updated_parsed := None; raw_summary := None;
     raw_description := None; raw_id := Some (py i); raw_author := None |}.

(** A feed that is parsed the same at every attempt; its second entry has
    a date that cannot be converted. *)
Definition misdated_feed : ParsedFeed :=
  {| feed_title := None; bozo := Some 0%Z;
     entries := [dated "A" 2024; dated "B" 10000] |}.

(** A historical entry whose title holds the control character [\x01]. *)
Definition control_titled : Entry :=
  {| title := [1]; link := []; pub_date := 0; summary := [];
     journal := []; id := py "A"; is_old := Some true |}.

(** Closes a decidable closed goal by evaluating its decision procedure. *)
Ltac by_computation := apply (bool_decide_unpack _); by vm_compute.

(** * Properties *)

(** ** Strings *)

Lemma startswith_nil (s : str) : startswith s [] = true.
Proof. by destruct s. Qed.

Lemma startswith_app (s k : str) :
  startswith s k = true ↔ ∃ post, s = k ++ post.
Proof.
  revert s. induction k as [|a k IH]; intros s.
  - rewrite startswith_nil. split; [eauto|done].
  - destruct s as [|b s]; simpl.
    + split; [done|]. by intros [post ?].
    + rewrite andb_true_iff, N.eqb_eq, IH. split.
      * intros [-> [post ->]]. eauto.
      * intros [post [= -> ->]]. eauto.
Qed.

Lemma contains_cons (c : N) (s k : str) :
  contains (c :: s) k = startswith (c :: s) k || contains s k.
Proof. done. Qed.

Lemma contains_occurs_in (s k : str) :
  contains s k = true ↔ occurs_in k s.
Proof.
  unfold occurs_in. induction s as [|c s IH].
  - cbn [contains]. rewrite orb_false_r, startswith_app. split.
    + intros [post ->]. by exists [], post.
    + intros [pre [post H]]. destruct pre; [eauto|done].
  - rewrite contains_cons, orb_true_iff, IH, startswith_app. split.
    + intros [[post ->]|[pre [post ->]]].
      * by exists [], post.
      * by exists (c :: pre), post.
    + intros [[|c' pre] [post H]]; simpl in H.
      * left. eauto.
      * right. injection H as -> ->. eauto.
Qed.

Lemma contains_nil (s : str) : contains s [] = true.
Proof. destruct s; simpl; by rewrite ?startswith_nil. Qed.

Lemma contains_length (s k : str) :
  contains s k = true → (length k ≤ length s)%nat.
Proof.
  rewrite contains_occurs_in. intros [pre [post ->]].
  rewrite !length_app. lia.
Qed.

Lemma str_replace_absent (old new s : str) :
  contains s old = false → str_replace old new s = s.
Proof.
  unfold str_replace. induction s as [|c s IH]; [done|].
  rewrite contains_cons. intros [H1 H2]%orb_false_iff.
  cbn [str_replace_from]. rewrite H1. f_equal. by apply IH.
Qed.

(** ** Text normaliser *)

Lemma remove_illegal_xml_chars_filter (text : str) :
  remove_illegal_xml_chars text = List.filter legal_xml_char text.
Proof. by destruct text. Qed.

Lemma remove_illegal_xml_chars_legal (text : str) :
  Forall (λ c, illegal_xml_char c = false) (remove_illegal_xml_chars text).
Proof.
  rewrite remove_illegal_xml_chars_filter, Forall_forall.
  intros c [_ H]%list_elem_of_In%filter_In.
  by apply negb_true_iff.
Qed.

Lemma remove_illegal_xml_chars_id (text : str) :
  Forall (λ c, illegal_xml_char c = false) text →
  remove_illegal_xml_chars text = text.
Proof.
  rewrite remove_illegal_xml_chars_filter.
  induction 1 as [|c l Hc _ IH]; [done|].
  simpl. unfold legal_xml_char at 1. rewrite Hc. simpl. by f_equal.
Qed.

(** C8: stripping the illegal characters twice is the same as stripping
    them once, for every string. *)
Theorem remove_illegal_xml_chars_idempotent (x : str) :
  remove_illegal_xml_chars (remove_illegal_xml_chars x)
  = remove_illegal_xml_chars x.
Proof.
  apply remove_illegal_xml_chars_id, remove_illegal_xml_chars_legal.
Qed.

Lemma JOURNAL_ABBR_keys_long (name abbr : str) :
  JOURNAL_ABBR !! name = Some abbr → (20 < length name)%nat.
Proof.
  intros H%elem_of_list_to_map_2.
  assert (Hall : Forall (λ kv : str * str, (20 < length kv.1)%nat)
                   JOURNAL_ABBR_items).
  { unfold JOURNAL_ABBR_items. repeat constructor; vm_compute; lia. }
  rewrite Forall_forall in Hall. exact (Hall _ H).
Qed.

Lemma JOURNAL_ABBR_keys_distinct : NoDup (JOURNAL_ABBR_items.*1).
Proof. by_computation. Qed.

(** C5, as the code has it: every occurrence of the marker [" - new TOC"]
    is removed and the result is looked up in the table; when it is there,
    its code is returned; otherwise every occurrence of the publisher
    prefix is removed and the first 15 characters of what is left are
    returned (all of it when it has 15 characters or fewer).  A label of
    exactly 20 characters that does not contain the marker is never in the
    table and yields its first 15 characters. *)
Theorem get_journal_abbr_spec (label : str) :
  (∀ abbr, JOURNAL_ABBR !! str_replace TOC_SUFFIX [] label = Some abbr →
     get_journal_abbr label = abbr) ∧
  (JOURNAL_ABBR !! str_replace TOC_SUFFIX [] label = None →
     get_journal_abbr label
     = take 15 (str_replace SD_PREFIX [] (str_replace TOC_SUFFIX [] label)) ∧
     ((length (str_replace SD_PREFIX [] (str_replace TOC_SUFFIX [] label))
       ≤ 15)%nat →
      get_journal_abbr label
      = str_replace SD_PREFIX [] (str_replace TOC_SUFFIX [] label))) ∧
  (length label = 20%nat → contains label TOC_SUFFIX = false →
     JOURNAL_ABBR !! label = None ∧ get_journal_abbr label = take 15 label).
Proof.
  unfold get_journal_abbr. split; [|split].
  - intros abbr ->. done.
  - intros ->. split.
    + destruct (Nat.ltb_spec 15
        (length (str_replace SD_PREFIX [] (str_replace TOC_SUFFIX [] label))));
        [done|].
      by rewrite take_ge.
    + intros Hle.
      destruct (Nat.ltb_spec 15
        (length (str_replace SD_PREFIX [] (str_replace TOC_SUFFIX [] label))));
        [lia|done].
  - intros Hlen Habsent.
    rewrite (str_replace_absent _ _ _ Habsent).
    assert (Hnone : JOURNAL_ABBR !! label = None).
    { destruct (JOURNAL_ABBR !! label) as [abbr|] eqn:E; [|done].
      apply JOURNAL_ABBR_keys_long in E. lia. }
    rewrite Hnone. split; [done|].
    assert (Hpre : contains label SD_PREFIX = false).
    { destruct (contains label SD_PREFIX) eqn:E; [|done].
      apply contains_length in E. rewrite Hlen in E.
      vm_compute in E. lia. }
    rewrite (str_replace_absent _ _ _ Hpre).
    destruct (Nat.ltb_spec 15 (length label)); [done|lia].
Qed.

Lemma get_journal_abbr_spec_witness :
  length (py "Journal of Tests ABC") = 20%nat ∧
  contains (py "Journal of Tests ABC") TOC_SUFFIX = false ∧
  get_journal_abbr (py "Journal of Tests ABC") = py "Journal of Test".
Proof.
  split; [reflexivity|]. split; [reflexivity|].
  apply (proj2 (proj2 (proj2 (get_journal_abbr_spec (py "Journal of Tests ABC")))
                  eq_refl eq_refl)).
Defined.

(** C5 as the specification words it fails: the table is consulted before
    the publisher prefix is removed, so a name the table lists with its
    prefix gets its code, where the specification's order gives the
    truncated cleaned name. *)
Lemma get_journal_abbr_not_abbreviate_spec :
  get_journal_abbr (py "ScienceDirect Publication: Pattern Recognition")
    = py "PR" ∧
  abbreviate_spec (py "ScienceDirect Publication: Pattern Recognition")
    = py "Pattern Recogni" ∧
  get_journal_abbr (py "ScienceDirect Publication: Pattern Recognition")
    ≠ abbreviate_spec (py "ScienceDirect Publication: Pattern Recognition").
Proof. split; [|split]; by vm_compute. Qed.

(** ** Query matcher *)

Section MatcherProperties.

Variable lower : str -> str.

Lemma all_keywords_in_spec (text : str) (kws : list str) :
  all_keywords_in text kws = true ↔ ∀ k, k ∈ kws → contains text k = true.
Proof.
  induction kws as [|k kws IH]; simpl.
  - split; [|done]. intros _ k Hk. by apply elem_of_nil in Hk.
  - destruct (contains text k) eqn:Hk; simpl.
    + rewrite IH. split.
      * intros H k' [->|Hin]%elem_of_cons; auto.
      * intros H k' Hin. apply H. by right.
    + split; [done|]. intros H.
      rewrite <- Hk. apply H. by left.
Qed.

Lemma match_queries_spec (text : str) (queries : list str) :
  match_queries lower text queries = true ↔
  ∃ query, query ∈ queries ∧
           all_keywords_in text (keywords lower query) = true.
Proof.
  induction queries as [|q queries IH]; simpl.
  - split; [done|]. intros [q [Hq _]]. by apply elem_of_nil in Hq.
  - destruct (all_keywords_in text (keywords lower q)) eqn:Hq.
    + split; [|done]. intros _. exists q. split; [by left|done].
    + rewrite IH. split.
      * intros [q' [Hin Hq']]. exists q'. split; [by right|done].
      * intros [q' [[->|Hin]%elem_of_cons Hq']]; [congruence|eauto].
Qed.

Lemma elem_of_keywords (k query : str) :
  k ∈ keywords lower query ↔
  ∃ term, term ∈ str_split (py "AND") query ∧ k = lower (strip term).
Proof.
  unfold keywords. rewrite list_elem_of_fmap. split.
  - intros [term [-> Hin]]. eauto.
  - intros [term [Hin ->]]. eauto.
Qed.

(** C2: [match_entry] is true exactly when some query of the list has all
    its [AND]-delimited terms, trimmed and lowercased, occurring in the
    lowercased title, a space, and summary; no entry matches the empty
    list. *)
Theorem match_entry_spec (entry : Entry) (queries : list str) :
  (match_entry lower entry queries = true ↔
   matches_spec lower entry queries) ∧
  match_entry lower entry [] = false.
Proof.
  split; [|done].
  unfold match_entry, matches_spec, text_to_search.
  rewrite match_queries_spec.
  apply exist_proper. intros query.
  apply and_iff_compat_l.
  rewrite all_keywords_in_spec. split.
  - intros H term Hterm. apply contains_occurs_in, H, elem_of_keywords.
    eauto.
  - intros H k [term [Hterm ->]]%elem_of_keywords.
    by apply contains_occurs_in, H.
Qed.

Hypothesis lower_empty : lower [] = [].

(** C9: a query whose [AND]-delimited terms all trim to the empty string
    matches every entry, so a list that holds such a query matches every
    entry. *)
Theorem blank_query_matches_all (entry : Entry) (queries : list str)
    (query : str) :
  query ∈ queries →
  Forall (λ term, strip term = []) (str_split (py "AND") query) →
  match_entry lower entry queries = true.
Proof.
  intros Hin Hblank. unfold match_entry.
  apply match_queries_spec. exists query. split; [done|].
  apply all_keywords_in_spec.
  intros k [term [Hterm ->]]%elem_of_keywords.
  rewrite Forall_forall in Hblank.
  rewrite (Hblank _ Hterm), lower_empty. apply contains_nil.
Qed.

End MatcherProperties.

Example match_deep_learning :
  match_entry ascii_lower (paper "Deep nets" "A study of LEARNING rates")
    [py "deep AND learning"] = true ∧
  match_entry ascii_lower (paper "Deep nets" "A study of rates")
    [py "deep AND learning"] = false ∧
  match_entry ascii_lower (paper "Deep nets" "A study of rates")
    [py "foo AND bar"; py "rates"] = true.
Proof. by vm_compute. Qed.

Lemma blank_query_matches_all_witness :
  ascii_lower [] = [] ∧
  py "AND" ∈ [py "deep AND learning"; py "AND"] ∧
  Forall (λ term, strip term = []) (str_split (py "AND") (py "AND")) ∧
  match_entry ascii_lower (paper "Unrelated" "text")
    [py "deep AND learning"; py "AND"] = true.
Proof.
  assert (H1 : py "AND" ∈ [py "deep AND learning"; py "AND"])
    by by_computation.
  assert (H2 : Forall (λ term, strip term = [])
                 (str_split (py "AND") (py "AND")))
    by by_computation.
  split; [reflexivity|]. split; [exact H1|]. split; [exact H2|].
  exact (blank_query_matches_all ascii_lower eq_refl
           (paper "Unrelated" "text") _ _ H1 H2).
Defined.

Example blank_queries :
  str_split (py "AND") (py "AND") = [[]; []] ∧
  Forall (λ term, strip term = []) (str_split (py "AND") (py "  ")) ∧
  Forall (λ term, strip term = []) (str_split (py "AND") (py " AND AND ")).
Proof.
  split; [done|].
  split; by_computation.
Qed.

(** ** Sorting *)

Lemma insert_desc_Permutation (x : Entry) (l : list Entry) :
  insert_desc x l ≡ₚ x :: l.
Proof.
  induction l as [|y l IH]; simpl; [done|].
  destruct (pub_date x <? pub_date y)%Z; [|done].
  rewrite IH. apply Permutation_swap.
Qed.

Lemma sort_desc_Permutation (l : list Entry) : sort_desc l ≡ₚ l.
Proof.
  induction l as [|x l IH]; simpl; [done|].
  by rewrite insert_desc_Permutation, IH.
Qed.

Lemma insert_desc_descending (x : Entry) (l : list Entry) :
  descending l → descending (insert_desc x l).
Proof.
  unfold descending. induction l as [|y l IH]; simpl; intros Hl.
  - by repeat constructor.
  - apply StronglySorted_inv in Hl as [Hl Hy].
    destruct (Z.ltb_spec (pub_date x) (pub_date y)) as [Hlt|Hge].
    + constructor; [by apply IH|].
      rewrite insert_desc_Permutation. constructor; [lia|done].
    + constructor; [by constructor|].
      constructor; [done|].
      eapply Forall_impl; [exact Hy|]. simpl. intros z Hz. lia.
Qed.

Lemma sort_desc_descending (l : list Entry) : descending (sort_desc l).
Proof.
  induction l as [|x l IH]; simpl.
  - constructor.
  - by apply insert_desc_descending.
Qed.

Lemma insert_desc_published_at (t : Z) (x : Entry) (l : list Entry) :
  published_at t (insert_desc x l) = published_at t (x :: l).
Proof.
  unfold published_at. induction l as [|y l IH]; simpl; [done|].
  destruct (Z.ltb_spec (pub_date x) (pub_date y)) as [Hlt|Hge]; [|done].
  rewrite (filter_cons _ y), IH, !filter_cons.
  repeat case_decide; try done; lia.
Qed.

(** The sort is stable: items published at the same time keep their
    input order. *)
Lemma sort_desc_stable (t : Z) (l : list Entry) :
  published_at t (sort_desc l) = published_at t l.
Proof.
  induction l as [|x l IH]; simpl; [done|].
  rewrite insert_desc_published_at. unfold published_at in *.
  by rewrite !filter_cons, IH.
Qed.

Lemma descending_cons (a : Entry) (l : list Entry) :
  descending (a :: l) →
  descending l ∧ ∀ b, b ∈ l → (pub_date b ≤ pub_date a)%Z.
Proof.
  intros [Hl Ha]%StronglySorted_inv. split; [done|].
  by apply Forall_forall.
Qed.

(** A list has only one stable descending arrangement: the model of the
    sort is determined by what Python promises of it. *)
Lemma descending_stable_unique (l1 l2 : list Entry) :
  descending l1 → descending l2 → l1 ≡ₚ l2 →
  (∀ t, published_at t l1 = published_at t l2) →
  l1 = l2.
Proof.
  revert l2. induction l1 as [|a l1 IH]; intros l2 H1 H2 Hperm Hst.
  - symmetry. by apply Permutation_nil.
  - destruct l2 as [|b l2]; [by apply Permutation_nil_r in Hperm|].
    apply descending_cons in H1 as [H1 Ha].
    apply descending_cons in H2 as [H2 Hb].
    assert (Hab : pub_date a = pub_date b).
    { assert (Hb' : b ∈ a :: l1) by (rewrite Hperm; left).
      assert (Ha' : a ∈ b :: l2) by (rewrite <- Hperm; left).
      apply elem_of_cons in Hb' as [->|Hb']; [done|].
      apply elem_of_cons in Ha' as [->|Ha']; [done|].
      apply Ha in Hb'. apply Hb in Ha'. lia. }
    assert (a = b) as <-.
    { specialize (Hst (pub_date a)). unfold published_at in Hst.
      rewrite !filter_cons in Hst.
      repeat case_decide; try congruence. }
    f_equal. apply IH; [done|done|by apply (inj (a ::.))|].
    intros t. specialize (Hst t). unfold published_at in *.
    rewrite !filter_cons in Hst. case_decide; congruence.
Qed.

(** C6: the items that are written are the stable descending arrangement
    of the merged list by publication time, cut to its first [MAX_ITEMS]
    entries; of three entries published at [t1 > t2 > t3], given in any
    order, a maximum of two keeps the [t1] entry then the [t2] entry. *)
Theorem select_items_spec (items : list Entry) :
  (∃ sorted,
     sorted ≡ₚ items ∧ descending sorted ∧
     (∀ t, published_at t sorted = published_at t items) ∧
     (∀ max_items, select_items max_items items = take max_items sorted) ∧
     generate_rss_xml items = render_item <$> take MAX_ITEMS sorted ∧
     length (generate_rss_xml items) = (MAX_ITEMS `min` length items)%nat) ∧
  (∀ e1 e2 e3,
     items ≡ₚ [e1; e2; e3] →
     (pub_date e3 < pub_date e2 < pub_date e1)%Z →
     select_items 2 items = [e1; e2]).
Proof.
  split.
  - exists (sort_desc items).
    split; [apply sort_desc_Permutation|].
    split; [apply sort_desc_descending|].
    split; [intros t; apply sort_desc_stable|].
    split; [done|]. split; [done|].
    unfold generate_rss_xml, select_items.
    by rewrite length_fmap, length_take, sort_desc_Permutation.
  - intros e1 e2 e3 Hperm Hlt. unfold select_items.
    assert (Hsorted : sort_desc items = [e1; e2; e3]).
    { apply (StronglySorted_unique_strong
               (λ a b, (pub_date b ≤ pub_date a)%Z)).
      - intros x1 x2 Hx1 Hx2 Hle1 Hle2.
        rewrite sort_desc_Permutation, Hperm in Hx1.
        repeat (apply elem_of_cons in Hx1 as [->|Hx1]);
          try (by apply elem_of_nil in Hx1);
          repeat (apply elem_of_cons in Hx2 as [->|Hx2]);
          try (by apply elem_of_nil in Hx2); try done; lia.
      - apply sort_desc_descending.
      - repeat constructor; lia.
      - by rewrite sort_desc_Permutation. }
    by rewrite Hsorted.
Qed.

(** ** Merge engine *)

Section MergeProperties.

Variable lower : str -> str.

Lemma merge_init_inv (existing_entries : list Entry) :
  NoDup (id <$> existing_entries) → merge_inv (merge_init existing_entries).
Proof.
  intros Hnd. split; [done|]. simpl. intros i Hi.
  by apply elem_of_list_to_set.
Qed.

Lemma merge_entry_inv (queries : list str) (st : MergeState)
    (entry : Entry) :
  merge_inv st → merge_inv (merge_entry lower queries st entry).
Proof.
  intros [Hnd Hseen]. unfold merge_entry.
  case_bool_decide as Hin; [done|].
  destruct (match_entry lower entry queries); [|done].
  split; simpl.
  - rewrite fmap_app. apply NoDup_app. split; [done|]. split.
    + intros i Hi ->%list_elem_of_singleton. auto.
    + apply NoDup_singleton.
  - intros i. rewrite fmap_app, elem_of_app. simpl.
    rewrite list_elem_of_singleton, elem_of_union, elem_of_singleton.
    intros [Hi| ->]; auto.
Qed.

Lemma merge_inv_holds (existing_entries : list Entry)
    (fetched : list (list Entry)) (queries : list str) :
  NoDup (id <$> existing_entries) →
  merge_inv (merge lower existing_entries fetched queries).
Proof.
  intros Hnd. unfold merge.
  generalize (merge_init_inv _ Hnd).
  generalize (merge_init existing_entries).
  induction fetched as [|fetched_entries fetched IH]; intros st Hst;
    [done|].
  simpl. apply IH. clear IH. revert st Hst.
  induction fetched_entries as [|entry rest IH]; intros st Hst; [done|].
  simpl. by apply IH, merge_entry_inv.
Qed.

Lemma select_items_ids (max_items : nat) (items : list Entry) :
  NoDup (id <$> items) → NoDup (id <$> select_items max_items items).
Proof.
  intros Hnd. unfold select_items. rewrite fmap_take.
  eapply sublist_NoDup; [|apply sublist_take].
  by rewrite sort_desc_Permutation.
Qed.

Lemma generate_rss_xml_guids (items : list Entry) :
  rss_guid <$> generate_rss_xml items
  = id <$> select_items MAX_ITEMS items.
Proof.
  unfold generate_rss_xml. rewrite <- list_fmap_compose. done.
Qed.

(** C1, as the code has it: when the entries read from the previous
    output have pairwise distinct identities, no two entries kept by the
    merge, and no two items written, share an identity, whatever was
    fetched; and a run with sources and queries writes such items. *)
Theorem merge_identities_distinct (existing_entries : list Entry)
    (fetched : list (list Entry)) (rss_urls queries : list str)
    (fetch : nat -> str -> list Entry) :
  NoDup (id <$> existing_entries) →
  NoDup (id <$> all_entries (merge lower existing_entries fetched queries)) ∧
  NoDup (rss_guid <$>
           generate_rss_xml
             (all_entries (merge lower existing_entries fetched queries))) ∧
  (rss_urls ≠ [] → queries ≠ [] →
   ∃ items,
     main lower rss_urls queries existing_entries fetch = Some items ∧
     NoDup (rss_guid <$> items)).
Proof.
  intros Hnd.
  assert (Hout : ∀ fetched,
    NoDup (rss_guid <$>
             generate_rss_xml
               (all_entries
                  (merge lower existing_entries fetched queries)))).
  { intros fetched'.
    destruct (merge_inv_holds _ fetched' queries Hnd) as [H _].
    rewrite generate_rss_xml_guids. by apply select_items_ids. }
  split; [by destruct (merge_inv_holds _ fetched queries Hnd)|].
  split; [done|].
  intros Hurls Hqueries. unfold main.
  rewrite !bool_decide_eq_true_2 by done. simpl. eauto.
Qed.

End MergeProperties.

Lemma merge_identities_distinct_witness :
  NoDup (id <$> [stamped "A" 5]) ∧
  main ascii_lower [py "http://feed"] [py "deep AND learning"]
    [stamped "A" 5] (λ _ _, [stamped "A" 7; stamped "B" 9; stamped "B" 3])
  = Some (render_item <$> [stamped "B" 9; stamped "A" 5]) ∧
  NoDup (rss_guid <$>
           generate_rss_xml
             (all_entries
                (merge ascii_lower [stamped "A" 5]
                   [[stamped "A" 7; stamped "B" 9; stamped "B" 3]]
                   [py "deep AND learning"]))).
Proof.
  assert (H : NoDup (id <$> [stamped "A" 5])) by apply NoDup_singleton.
  split; [exact H|]. split; [by vm_compute|].
  exact (proj1 (proj2 (merge_identities_distinct ascii_lower
           [stamped "A" 5] [[stamped "A" 7; stamped "B" 9; stamped "B" 3]]
           [] [py "deep AND learning"] (λ _ _, []) H))).
Defined.

(** C1 as stated fails: the identities of the entries read from the
    previous output are put in the result without being compared with one
    another, so a previous output that holds an identity twice gives a new
    output that holds it twice. *)
Lemma merge_identities_not_always_distinct :
  ¬ (∀ (rss_urls queries : list str) (existing_entries : list Entry)
       (fetch : nat -> str -> list Entry) (items : list Item),
       main ascii_lower rss_urls queries existing_entries fetch = Some items →
       NoDup (rss_guid <$> items)).
Proof.
  intros H.
  pose proof (H [py "http://feed"] [py "deep AND learning"]
    (get_existing_items mktime_total (λ _, 0%Z) true
       (Returned {| feed_title := None; bozo := Some 0%Z;
                    entries := [stored "A" "First"; stored "A" "Second"] |})).2
    (λ _ _, [stamped "B" 9]) _ eq_refl) as Hnd.
  vm_compute in Hnd.
  apply NoDup_cons in Hnd as [_ Hnd].
  apply NoDup_cons in Hnd as [Hin _]. apply Hin. left.
Qed.

(** ** Feed serialiser *)

Lemma generate_rss_xml_lookup (items : list Entry) (i : nat) :
  generate_rss_xml items !! i
  = render_item <$> select_items MAX_ITEMS items !! i.
Proof. unfold generate_rss_xml. apply list_lookup_fmap. Qed.

(** C3, as the code has it: the title written for a historical entry that
    is kept is its title with the XML-illegal control characters removed,
    never an abbreviation prefix; it is the input title exactly when that
    title holds no such character. *)
Theorem historical_title_kept (items : list Entry) (i : nat) (e : Entry) :
  select_items MAX_ITEMS items !! i = Some e →
  is_old e = Some true →
  rss_title <$> generate_rss_xml items !! i
  = Some (remove_illegal_xml_chars (title e)) ∧
  (Forall (λ c, illegal_xml_char c = false) (title e) →
   rss_title <$> generate_rss_xml items !! i = Some (title e)).
Proof.
  intros Hi Hold. rewrite generate_rss_xml_lookup, Hi. simpl.
  unfold display_title. rewrite Hold. simpl. split; [done|].
  intros Hlegal. by rewrite remove_illegal_xml_chars_id.
Qed.

Lemma historical_title_kept_witness :
  select_items MAX_ITEMS [control_titled] !! 0%nat = Some control_titled ∧
  is_old control_titled = Some true ∧
  rss_title <$> generate_rss_xml [control_titled] !! 0%nat
  = Some (remove_illegal_xml_chars (title control_titled)).
Proof.
  split; [reflexivity|]. split; [reflexivity|].
  exact (proj1 (historical_title_kept [control_titled] 0 control_titled
                  eq_refl eq_refl)).
Defined.

(** C3 as stated fails: a historical title that holds a control character
    is written without it. *)
Lemma historical_title_not_always_exact :
  ¬ (∀ (items : list Entry) (i : nat) (e : Entry),
       select_items MAX_ITEMS items !! i = Some e →
       is_old e = Some true →
       rss_title <$> generate_rss_xml items !! i = Some (title e)).
Proof.
  intros H. specialize (H [control_titled] 0%nat control_titled eq_refl eq_refl).
  vm_compute in H. discriminate H.
Qed.

(** ** Feed fetcher *)

Section FetcherProperties.

Variable mktime : struct_time -> outcome Z.
Variable now : nat -> Z.
Variable feedparser_parse : nat -> outcome ParsedFeed.
Variable rss_url : str.

Lemma parse_rss_loop_attempts (attempt remaining : nat) :
  (attempts
     (parse_rss_loop mktime now feedparser_parse rss_url attempt
        remaining).1 ≤ remaining)%nat.
Proof.
  revert attempt. induction remaining as [|r IH]; intros attempt; simpl.
  - done.
  - destruct (parse_attempt _ _ _) as [e|es]; simpl.
    + specialize (IH (S attempt)).
      destruct (parse_rss_loop _ _ _ _ _ _) as [trace entries].
      unfold attempts in *. simpl in *. lia.
    + unfold attempts. simpl. lia.
Qed.

Lemma parse_rss_loop_exhausted (errors : list str) (attempt : nat) :
  (∀ k e, errors !! k = Some e →
     parse_attempt mktime now (feedparser_parse (attempt + k)) = Raised e) →
  parse_rss_loop mktime now feedparser_parse rss_url attempt (length errors)
  = (errors ≫= failure_events rss_url, []).
Proof.
  revert attempt. induction errors as [|e errors IH]; intros attempt H;
    [done|].
  simpl. rewrite <- (Nat.add_0_r attempt) at 1.
  rewrite (H 0%nat e eq_refl), IH; [done|].
  intros k e' Hk. rewrite Nat.add_succ_comm. by apply H.
Qed.

Lemma parse_rss_loop_success (errors : list str) (entries : list Entry)
    (attempt remaining : nat) :
  (∀ k e, errors !! k = Some e →
     parse_attempt mktime now (feedparser_parse (attempt + k)) = Raised e) →
  (length errors < remaining)%nat →
  parse_attempt mktime now (feedparser_parse (attempt + length errors))
  = Returned entries →
  parse_rss_loop mktime now feedparser_parse rss_url attempt remaining
  = ((errors ≫= failure_events rss_url) ++ [Parse rss_url], entries).
Proof.
  revert attempt remaining.
  induction errors as [|e errors IH]; intros attempt remaining H Hlt Hok.
  - destruct remaining as [|r]; [simpl in Hlt; lia|].
    simpl in *. rewrite Nat.add_0_r in Hok. by rewrite Hok.
  - destruct remaining as [|r]; [simpl in Hlt; lia|].
    simpl. rewrite <- (Nat.add_0_r attempt) at 1.
    rewrite (H 0%nat e eq_refl), (IH (S attempt) r); [done| |simpl in Hlt; lia|].
    + intros k e' Hk. rewrite Nat.add_succ_comm. by apply H.
    + rewrite Nat.add_succ_comm. exact Hok.
Qed.

(** C7: a fetch makes at most [retries] parse attempts (3 by default);
    each failed attempt is followed by its message and a wait of 2; when
    all attempts fail the result is the empty list, and when an attempt
    succeeds the result is its entries and nothing more is tried.  The
    function returns in every case: no exception of an attempt reaches
    the caller. *)
Theorem parse_rss_retries (retries : option Z) (errors : list str) :
  (∀ k e, errors !! k = Some e →
     parse_attempt mktime now (feedparser_parse k) = Raised e) →
  (attempts (parse_rss mktime now feedparser_parse rss_url retries).1
   ≤ Z.to_nat (default 3%Z retries))%nat ∧
  (length errors = Z.to_nat (default 3%Z retries) →
   parse_rss mktime now feedparser_parse rss_url retries
   = (Print (py "Fetching: " ++ rss_url ++ py "...") ::
      (errors ≫= failure_events rss_url), [])) ∧
  (∀ entries,
     (length errors < Z.to_nat (default 3%Z retries))%nat →
     parse_attempt mktime now (feedparser_parse (length errors))
     = Returned entries →
     parse_rss mktime now feedparser_parse rss_url retries
     = (Print (py "Fetching: " ++ rss_url ++ py "...") ::
        (errors ≫= failure_events rss_url) ++ [Parse rss_url], entries)).
Proof.
  intros H. unfold parse_rss. split; [|split].
  - pose proof (parse_rss_loop_attempts 0 (Z.to_nat (default 3%Z retries))).
    destruct (parse_rss_loop _ _ _ _ _ _) as [trace entries]. done.
  - intros <-. by rewrite parse_rss_loop_exhausted.
  - intros entries Hlt Hok.
    by rewrite (parse_rss_loop_success errors entries).
Qed.

End FetcherProperties.

Lemma parse_rss_retries_witness :
  (∀ k e, [py "timed out"; py "timed out"; py "timed out"] !! k = Some e →
     parse_attempt mktime_total (λ _, 0%Z) (unreachable k) = Raised e) ∧
  parse_rss mktime_total (λ _, 0%Z) unreachable (py "http://feed") None
  = ([Print (py "Fetching: http://feed...");
      Parse (py "http://feed");
      Print (py "Error parsing http://feed: timed out"); Sleep 2;
      Parse (py "http://feed");
      Print (py "Error parsing http://feed: timed out"); Sleep 2;
      Parse (py "http://feed");
      Print (py "Error parsing http://feed: timed out"); Sleep 2], []).
Proof.
  assert (H : ∀ k e,
    [py "timed out"; py "timed out"; py "timed out"] !! k = Some e →
    parse_attempt mktime_total (λ _, 0%Z) (unreachable k) = Raised e).
  { intros [|[|[|k]]] e [= <-]; reflexivity. }
  split; [exact H|].
  exact (proj1 (proj2 (parse_rss_retries mktime_total (λ _, 0%Z) unreachable
                         (py "http://feed") None _ H)) eq_refl).
Defined.

(** ** Existing-output reader *)

Section ReaderProperties.

Variable mktime : struct_time -> outcome Z.
Variable now : nat -> Z.

(** A parse that raises is recovered: the history is empty. *)
Lemma get_existing_items_raised (file_exists : bool) (e : str) :
  (get_existing_items mktime now file_exists (Raised e)).2 = [].
Proof. unfold get_existing_items. by destruct file_exists. Qed.

(** A feed flagged as ill-formed is warned about, and its entries are
    returned all the same. *)
Lemma get_existing_items_bozo (feed : ParsedFeed) (es : list Entry) :
  bozo feed = Some 1%Z →
  convert_entries (λ i, existing_entry mktime (now i)) 0 (entries feed)
  = Returned es →
  get_existing_items mktime now true (Returned feed)
  = ([Print (py "Loading existing items from filtered_feed.xml...");
      Parse OUTPUT_FILE; Print CORRUPTED_WARNING], es).
Proof.
  intros Hbozo Hes. unfold get_existing_items. simpl.
  by rewrite Hes, Hbozo.
Qed.

End ReaderProperties.

(** C4 fails on the code: for a previous output that the parser flags as
    ill-formed and still reads an item from, the reader prints that the old
    items are ignored and returns the item. *)
Theorem get_existing_items_keeps_flagged_entries :
  get_existing_items mktime_total (λ _, 0%Z) true (Returned recovered_feed)
  = ([Print (py "Loading existing items from filtered_feed.xml...");
      Parse (py "filtered_feed.xml");
      Print (py "Warning: Existing XML file might be corrupted. Ignoring old items.")],
     [ {| title := py "[PR] An old paper"; link := py "http://example.org";
          pub_date := 0; summary := []; journal := py "Some Journal";
          id := py "A"; is_old := Some true |} ]).
Proof. reflexivity. Qed.

(** ** Configuration *)

Section ConfigProperties.

Variable environ files : gmap (list N) (list N).
Variable filename : str.

Lemma elem_of_stripped_items (x : str) (pieces : list str) :
  x ∈ stripped_items pieces ↔
  ∃ item, item ∈ pieces ∧ strip item ≠ [] ∧ x = strip item.
Proof.
  unfold stripped_items. rewrite list_elem_of_fmap. split.
  - intros [item [-> [Hin Hne]%list_elem_of_In%filter_In]].
    exists item. split; [by apply list_elem_of_In|]. split; [|done].
    by destruct (strip item).
  - intros [item [Hin [Hne ->]]]. exists item. split; [done|].
    apply list_elem_of_In, filter_In. split; [by apply list_elem_of_In|].
    by destruct (strip item).
Qed.

(** C10: a configuration taken from a set, non-empty environment variable
    is split on newlines when it has one and on semicolons otherwise, and
    every item that is not blank is returned, trimmed, also when it
    starts with [#].  Only a configuration read from the local file
    leaves out the lines that start with [#]. *)
Theorem load_config_env_keeps_comments (name content : str) :
  truthy name = true →
  environ !! name = Some content →
  truthy content = true →
  (load_config environ files filename (Some name)).2
  = stripped_items (str_split (config_separator content) content) ∧
  (∀ x, x ∈ (load_config environ files filename (Some name)).2 ↔
        ∃ item, item ∈ str_split (config_separator content) content ∧
                strip item ≠ [] ∧ x = strip item) ∧
  (∀ text x,
     files !! filename = Some text →
     x ∈ (load_config environ files filename None).2 ↔
     ∃ line, line ∈ file_lines text ∧ startswith line (py "#") = false ∧
             strip line ≠ [] ∧ x = strip line).
Proof.
  intros Hname Henv Hcontent.
  assert (Heq : (load_config environ files filename (Some name)).2
                = stripped_items
                    (str_split (config_separator content) content)).
  { unfold load_config, config_separator.
    rewrite Hname, Henv, Hcontent. simpl.
    by destruct (contains content [10]). }
  split; [done|]. split.
  - intros x. rewrite Heq. apply elem_of_stripped_items.
  - intros text x Hfile. unfold load_config. rewrite Hfile. simpl.
    rewrite list_elem_of_fmap. split.
    + intros [line [-> [Hin [Hne Hhash]%andb_true_iff]%list_elem_of_In%filter_In]].
      exists line. split; [by apply list_elem_of_In|].
      split; [by apply negb_true_iff|]. split; [|done].
      by destruct (strip line).
    + intros [line [Hin [Hhash [Hne ->]]]]. exists line. split; [done|].
      apply list_elem_of_In, filter_In. split; [by apply list_elem_of_In|].
      rewrite Hhash. by destruct (strip line).
Qed.

End ConfigProperties.

Lemma load_config_env_keeps_comments_witness :
  truthy (py "RSS_KEYWORDS") = true ∧
  ({[ py "RSS_KEYWORDS" := [35; 32; 100; 108; 10; 10; 32; 103; 97; 110; 32] ]}
     : gmap (list N) (list N)) !! py "RSS_KEYWORDS"
  = Some [35; 32; 100; 108; 10; 10; 32; 103; 97; 110; 32] ∧
  truthy [35; 32; 100; 108; 10; 10; 32; 103; 97; 110; 32] = true ∧
  (load_config
     {[ py "RSS_KEYWORDS" := [35; 32; 100; 108; 10; 10; 32; 103; 97; 110; 32] ]}
     ∅ (py "keywords.dat") (Some (py "RSS_KEYWORDS"))).2
  = [py "# dl"; py "gan"].
Proof.
  assert (H : ({[ py "RSS_KEYWORDS" :=
                    [35; 32; 100; 108; 10; 10; 32; 103; 97; 110; 32] ]}
                 : gmap (list N) (list N)) !! py "RSS_KEYWORDS"
              = Some [35; 32; 100; 108; 10; 10; 32; 103; 97; 110; 32])
    by apply lookup_singleton_eq.
  split; [reflexivity|]. split; [exact H|]. split; [reflexivity|].
  exact (proj1 (load_config_env_keeps_comments _ ∅ (py "keywords.dat")
                  (py "RSS_KEYWORDS") _ eq_refl H eq_refl)).
Defined.

Example load_config_file_drops_comments :
  (load_config ∅
     {[ py "keywords.dat" := [35; 32; 100; 108; 10; 10; 32; 103; 97; 110; 32] ]}
     (py "keywords.dat") (Some (py "RSS_KEYWORDS"))).2
  = [py "gan"] ∧
  (load_config
     {[ py "RSS_KEYWORDS" := py "# dl; gan;;" ]} ∅
     (py "keywords.dat") (Some (py "RSS_KEYWORDS"))).2
  = [py "# dl"; py "gan"].
Proof. split; by vm_compute. Qed.

Lemma select_items_spec_witness :
  [stamped "C" 1; stamped "A" 3; stamped "B" 2]
    ≡ₚ [stamped "A" 3; stamped "B" 2; stamped "C" 1] ∧
  (pub_date (stamped "C" 1) < pub_date (stamped "B" 2)
   < pub_date (stamped "A" 3))%Z ∧
  select_items 2 [stamped "C" 1; stamped "A" 3; stamped "B" 2]
  = [stamped "A" 3; stamped "B" 2].
Proof.
  assert (Hperm : [stamped "C" 1; stamped "A" 3; stamped "B" 2]
                    ≡ₚ [stamped "A" 3; stamped "B" 2; stamped "C" 1])
    by exact (Permutation_app_comm [stamped "C" 1]
                [stamped "A" 3; stamped "B" 2]).
  assert (Hlt : (pub_date (stamped "C" 1) < pub_date (stamped "B" 2)
                 < pub_date (stamped "A" 3))%Z) by (simpl; lia).
  split; [exact Hperm|]. split; [exact Hlt|].
  exact (proj2 (select_items_spec
                  [stamped "C" 1; stamped "A" 3; stamped "B" 2])
           _ _ _ Hperm Hlt).
Defined.

(** * Further properties *)

(** ** Text normaliser *)




(** X2: stripping a concatenation is concatenating the stripped parts. *)
Theorem remove_illegal_xml_chars_app (a b : str) :
  remove_illegal_xml_chars (a ++ b)
  = remove_illegal_xml_chars a ++ remove_illegal_xml_chars b.
Proof.
  rewrite !remove_illegal_xml_chars_filter. apply List.filter_app.
Qed.

Lemma JOURNAL_ABBR_values_short (name abbr : str) :
  JOURNAL_ABBR !! name = Some abbr → (length abbr ≤ 8)%nat.
Proof.
  intros H%elem_of_list_to_map_2.
  assert (Hall : Forall (λ kv : str * str, (length kv.2 ≤ 8)%nat)
                   JOURNAL_ABBR_items).
  { unfold JOURNAL_ABBR_items. repeat constructor; vm_compute; lia. }
  rewrite Forall_forall in Hall. exact (Hall _ H).
Qed.

(** X3: an abbreviation never has more than 15 characters, whatever the
    label. *)
Theorem get_journal_abbr_length (label : str) :
  (length (get_journal_abbr label) ≤ 15)%nat.
Proof.
  unfold get_journal_abbr.
  destruct (JOURNAL_ABBR !! _) as [abbr|] eqn:E.
  - apply JOURNAL_ABBR_values_short in E. lia.
  - destruct (Nat.ltb_spec 15
      (length (str_replace SD_PREFIX [] (str_replace TOC_SUFFIX [] label))));
      [|done].
    rewrite length_take. lia.
Qed.

(** X4: every name of the table gets its code, with or without the marker
    [" - new TOC"] after it. *)
Theorem get_journal_abbr_table (name abbr : str) :
  JOURNAL_ABBR !! name = Some abbr →
  get_journal_abbr name = abbr ∧
  get_journal_abbr (name ++ TOC_SUFFIX) = abbr.
Proof.
  intros H%elem_of_list_to_map_2.
  assert (Hall : Forall (λ kv : str * str,
                    get_journal_abbr kv.1 = kv.2 ∧
                    get_journal_abbr (kv.1 ++ TOC_SUFFIX) = kv.2)
                   JOURNAL_ABBR_items).
  { unfold JOURNAL_ABBR_items. repeat constructor; by vm_compute. }
  rewrite Forall_forall in Hall. exact (Hall _ H).
Qed.

Lemma get_journal_abbr_table_witness :
  JOURNAL_ABBR !! py "IEEE Transactions on Medical Imaging" = Some (py "TMI") ∧
  get_journal_abbr (py "IEEE Transactions on Medical Imaging") = py "TMI" ∧
  get_journal_abbr (py "IEEE Transactions on Medical Imaging - new TOC")
  = py "TMI".
Proof.
  assert (H : JOURNAL_ABBR !! py "IEEE Transactions on Medical Imaging"
              = Some (py "TMI")) by (by vm_compute).
  split; [exact H|].
  exact (get_journal_abbr_table _ _ H).
Defined.

(** ** Query matcher and merge engine *)

Section MergeMore.

Variable lower : str -> str.

Lemma match_queries_app (text : str) (qs1 qs2 : list str) :
  match_queries lower text (qs1 ++ qs2)
  = match_queries lower text qs1 || match_queries lower text qs2.
Proof.
  induction qs1 as [|q qs1 IH]; simpl; [done|].
  by destruct (all_keywords_in text (keywords lower q)).
Qed.

(** X5: queries are alternatives: an entry matches two lists put together
    exactly when it matches one of them, and the order of the queries does
    not change the result. *)
Theorem match_entry_app (entry : Entry) (qs1 qs2 : list str) :
  match_entry lower entry (qs1 ++ qs2)
  = match_entry lower entry qs1 || match_entry lower entry qs2 ∧
  match_entry lower entry (qs2 ++ qs1) = match_entry lower entry (qs1 ++ qs2).
Proof.
  unfold match_entry. rewrite !match_queries_app. split; [done|].
  apply orb_comm.
Qed.

(** The state after the entries [l] of any sources have been gone through. *)
Lemma merge_concat (existing_entries : list Entry)
    (fetched : list (list Entry)) (queries : list str) :
  merge lower existing_entries fetched queries
  = foldl (merge_entry lower queries) (merge_init existing_entries)
      (concat fetched).
Proof.
  unfold merge. generalize (merge_init existing_entries).
  induction fetched as [|es fetched IH]; intros st; simpl; [done|].
  by rewrite foldl_app, IH.
Qed.

Lemma merge_entries_added (queries : list str) (l : list Entry)
    (st : MergeState) :
  ∃ added,
    all_entries (foldl (merge_entry lower queries) st l)
    = all_entries st ++ added ∧
    added `sublist_of` l ∧
    Forall (λ e, match_entry lower e queries = true ∧ id e ∉ seen_ids st)
      added.
Proof.
  revert st. induction l as [|e l IH]; intros st; simpl.
  - exists []. by rewrite app_nil_r.
  - unfold merge_entry at 2.
    case_bool_decide as Hseen.
    { destruct (IH st) as (added & Heq & Hsub & Hall).
      exists added. split; [done|]. split; [by constructor|done]. }
    destruct (match_entry lower e queries) eqn:Hmatch.
    + destruct (IH {| seen_ids := {[id e]} ∪ seen_ids st;
                      all_entries := all_entries st ++ [e];
                      new_count := S (new_count st) |})
        as (added & Heq & Hsub & Hall).
      exists (e :: added). simpl in *.
      split; [by rewrite Heq, <- app_assoc|].
      split; [by constructor|].
      constructor; [done|].
      eapply Forall_impl; [exact Hall|]. simpl.
      intros e' [Hm Hnot]. split; [done|].
      intros Hin. apply Hnot, elem_of_union. by right.
    + destruct (IH st) as (added & Heq & Hsub & Hall).
      exists added. split; [done|]. split; [by constructor|done].
Qed.

(** X6: the merge keeps every existing entry, in place and without
    matching it; what it adds after them are fetched entries, in the order
    they were fetched, each of which matches a query and has an identity no
    existing entry has. *)
Theorem merge_keeps_existing (existing_entries : list Entry)
    (fetched : list (list Entry)) (queries : list str) :
  ∃ added,
    all_entries (merge lower existing_entries fetched queries)
    = existing_entries ++ added ∧
    added `sublist_of` concat fetched ∧
    Forall (λ e, match_entry lower e queries = true ∧
                 id e ∉ id <$> existing_entries) added.
Proof.
  rewrite merge_concat.
  destruct (merge_entries_added queries (concat fetched)
              (merge_init existing_entries)) as (added & Heq & Hsub & Hall).
  exists added. split; [done|]. split; [done|].
  eapply Forall_impl; [exact Hall|]. simpl.
  intros e [Hm Hnot]. split; [done|].
  intros Hin. apply Hnot. by apply elem_of_list_to_set.
Qed.

Lemma merge_entry_seen (queries : list str) (st : MergeState) (e : Entry) :
  seen_ids st = list_to_set (id <$> all_entries st) →
  seen_ids (merge_entry lower queries st e)
  = list_to_set (id <$> all_entries (merge_entry lower queries st e)).
Proof.
  intros Hst. unfold merge_entry. case_bool_decide; [done|].
  destruct (match_entry lower e queries); [|done]. simpl.
  rewrite fmap_app, list_to_set_app_L, <- Hst. simpl.
  by rewrite (right_id_L ∅ (∪)), (comm_L (∪)).
Qed.

Lemma merge_entry_count (queries : list str) (base : nat) (st : MergeState)
    (e : Entry) :
  length (all_entries st) = (base + new_count st)%nat →
  length (all_entries (merge_entry lower queries st e))
  = (base + new_count (merge_entry lower queries st e))%nat.
Proof.
  intros Hst. unfold merge_entry. case_bool_decide; [done|].
  destruct (match_entry lower e queries); [|done]. simpl.
  rewrite length_app. simpl. lia.
Qed.

Lemma merge_entries_seen_count (queries : list str) (base : nat)
    (l : list Entry) (st : MergeState) :
  seen_ids st = list_to_set (id <$> all_entries st) →
  length (all_entries st) = (base + new_count st)%nat →
  seen_ids (foldl (merge_entry lower queries) st l)
  = list_to_set (id <$> all_entries (foldl (merge_entry lower queries) st l)) ∧
  length (all_entries (foldl (merge_entry lower queries) st l))
  = (base + new_count (foldl (merge_entry lower queries) st l))%nat.
Proof.
  revert st. induction l as [|e l IH]; intros st Hseen Hcount; simpl;
    [done|].
  apply IH; [by apply merge_entry_seen|by apply merge_entry_count].
Qed.

(** X7: when the merge is over, [seen_ids] is exactly the set of the
    identities of the entries kept, and [new_count] is the number of
    entries added to the existing ones. *)
Theorem merge_seen_ids_exact (existing_entries : list Entry)
    (fetched : list (list Entry)) (queries : list str) :
  seen_ids (merge lower existing_entries fetched queries)
  = list_to_set
      (id <$> all_entries (merge lower existing_entries fetched queries)) ∧
  length (all_entries (merge lower existing_entries fetched queries))
  = (length existing_entries
     + new_count (merge lower existing_entries fetched queries))%nat.
Proof.
  rewrite merge_concat. apply merge_entries_seen_count; simpl; [done|lia].
Qed.

Lemma merge_entry_seen_mono (queries : list str) (st : MergeState)
    (e : Entry) (i : str) :
  i ∈ seen_ids st → i ∈ seen_ids (merge_entry lower queries st e).
Proof.
  intros Hi. unfold merge_entry. case_bool_decide; [done|].
  destruct (match_entry lower e queries); [|done]. simpl.
  apply elem_of_union. by right.
Qed.

Lemma merge_entries_seen_mono (queries : list str) (l : list Entry)
    (st : MergeState) (i : str) :
  i ∈ seen_ids st → i ∈ seen_ids (foldl (merge_entry lower queries) st l).
Proof.
  revert st. induction l as [|e l IH]; intros st Hi; simpl; [done|].
  by apply IH, merge_entry_seen_mono.
Qed.

Lemma merge_entries_complete (queries : list str) (l : list Entry)
    (st : MergeState) (e : Entry) :
  e ∈ l → match_entry lower e queries = true →
  id e ∈ seen_ids (foldl (merge_entry lower queries) st l).
Proof.
  revert st. induction l as [|e' l IH]; intros st Hin Hmatch.
  - by apply elem_of_nil in Hin.
  - simpl. apply elem_of_cons in Hin as [<-|Hin]; [|by apply IH].
    apply merge_entries_seen_mono. unfold merge_entry.
    case_bool_decide; [done|]. rewrite Hmatch. simpl.
    apply elem_of_union. left. by apply elem_of_singleton.
Qed.

(** X8: no matching entry is lost: the identity of every fetched entry
    that matches a query is the identity of an entry kept. *)
Theorem merge_complete (existing_entries : list Entry)
    (fetched : list (list Entry)) (queries : list str)
    (fetched_entries : list Entry) (entry : Entry) :
  fetched_entries ∈ fetched → entry ∈ fetched_entries →
  match_entry lower entry queries = true →
  id entry ∈ id <$> all_entries (merge lower existing_entries fetched queries).
Proof.
  intros Hes He Hmatch.
  apply (elem_of_list_to_set (C := gset (list N))).
  rewrite merge_concat.
  destruct (merge_entries_seen_count queries (length existing_entries)
              (concat fetched) (merge_init existing_entries)) as [<- _];
    [done|simpl; lia|].
  apply merge_entries_complete; [|done].
  apply list_elem_of_In, in_concat. exists fetched_entries.
  by rewrite <- !list_elem_of_In.
Qed.

Lemma merge_entries_nothing_new (queries : list str) (l : list Entry)
    (st : MergeState) :
  (∀ e, e ∈ l → match_entry lower e queries = true → id e ∈ seen_ids st) →
  foldl (merge_entry lower queries) st l = st.
Proof.
  induction l as [|e l IH]; intros H; simpl; [done|].
  assert (Hstep : merge_entry lower queries st e = st).
  { unfold merge_entry. case_bool_decide as Hseen; [done|].
    destruct (match_entry lower e queries) eqn:Hmatch; [|done].
    destruct Hseen. apply H; [by left|done]. }
  rewrite Hstep. apply IH. intros e' He'. apply H. by right.
Qed.

(** X9: merging again what was just merged adds nothing: with the entries
    kept by a merge as the existing ones, the same fetched entries leave
    the list as it is. *)
Theorem merge_again_adds_nothing (existing_entries : list Entry)
    (fetched : list (list Entry)) (queries : list str) :
  all_entries
    (merge lower
       (all_entries (merge lower existing_entries fetched queries))
       fetched queries)
  = all_entries (merge lower existing_entries fetched queries).
Proof.
  rewrite (merge_concat (all_entries _)).
  rewrite merge_entries_nothing_new; [done|].
  intros e He Hmatch. simpl. apply elem_of_list_to_set.
  apply (elem_of_list_to_set (C := gset (list N))).
  rewrite merge_concat.
  destruct (merge_entries_seen_count queries (length existing_entries)
              (concat fetched) (merge_init existing_entries)) as [<- _];
    [done|simpl; lia|].
  by apply merge_entries_complete.
Qed.

(** X10: the split of the fetched entries into sources does not matter:
    the merge of the sources is the merge of one source that yields all
    their entries in the same order. *)
Theorem merge_sources_joined (existing_entries : list Entry)
    (fetched : list (list Entry)) (queries : list str) :
  merge lower existing_entries fetched queries
  = merge lower existing_entries [concat fetched] queries.
Proof.
  rewrite !merge_concat. simpl. by rewrite app_nil_r.
Qed.

End MergeMore.

Lemma merge_complete_witness :
  [stamped "A" 7; stamped "B" 9] ∈ [[stamped "A" 7; stamped "B" 9]] ∧
  stamped "B" 9 ∈ [stamped "A" 7; stamped "B" 9] ∧
  match_entry ascii_lower (stamped "B" 9) [py "deep AND learning"] = true ∧
  id (stamped "B" 9)
  ∈ id <$> all_entries
      (merge ascii_lower [stamped "A" 5] [[stamped "A" 7; stamped "B" 9]]
         [py "deep AND learning"]).
Proof.
  assert (H1 : [stamped "A" 7; stamped "B" 9]
               ∈ [[stamped "A" 7; stamped "B" 9]]) by apply list_elem_of_here.
  assert (H2 : stamped "B" 9 ∈ [stamped "A" 7; stamped "B" 9])
    by (right; left).
  assert (H3 : match_entry ascii_lower (stamped "B" 9)
                 [py "deep AND learning"] = true) by (by vm_compute).
  split; [exact H1|]. split; [exact H2|]. split; [exact H3|].
  exact (merge_complete ascii_lower [stamped "A" 5] _ _ _ _ H1 H2 H3).
Defined.

(** ** Selection and serialisation *)

(** X11: the cut drops only the oldest: the entries left out, as many as
    exceed the maximum, are each no more recent than every entry kept. *)
Theorem select_items_keeps_recent (max_items : nat) (items : list Entry) :
  ∃ dropped,
    items ≡ₚ select_items max_items items ++ dropped ∧
    length dropped = (length items - max_items)%nat ∧
    ∀ kept old, kept ∈ select_items max_items items → old ∈ dropped →
                (pub_date old ≤ pub_date kept)%Z.
Proof.
  exists (drop max_items (sort_desc items)). unfold select_items.
  split; [by rewrite take_drop, sort_desc_Permutation|].
  split; [by rewrite length_drop, sort_desc_Permutation|].
  intros kept old Hkept Hold.
  pose proof (sort_desc_descending items) as Hdesc.
  rewrite <- (take_drop max_items (sort_desc items)) in Hdesc.
  exact (StronglySorted_app_1_elem_of _ _ _ _ _ Hdesc Hkept Hold).
Qed.

Lemma sort_desc_descending_id (l : list Entry) :
  descending l → sort_desc l = l.
Proof.
  intros Hl. apply descending_stable_unique.
  - apply sort_desc_descending.
  - done.
  - apply sort_desc_Permutation.
  - intros t. apply sort_desc_stable.
Qed.

Lemma descending_take (n : nat) (l : list Entry) :
  descending l → descending (take n l).
Proof.
  intros Hl. rewrite <- (take_drop n l) in Hl.
  exact (StronglySorted_app_1_l _ _ _ Hl).
Qed.

(** X12: selecting again from a selection only cuts: the entries stay in
    their order, so selecting twice with the same maximum is selecting
    once. *)
Theorem select_items_again (m n : nat) (items : list Entry) :
  select_items m (select_items n items) = select_items (m `min` n) items.
Proof.
  unfold select_items.
  rewrite (sort_desc_descending_id (take n _)), take_take; [done|].
  apply descending_take, sort_desc_descending.
Qed.

Lemma remove_illegal_xml_chars_twice (text : str) :
  remove_illegal_xml_chars (remove_illegal_xml_chars text)
  = remove_illegal_xml_chars text.
Proof.
  apply remove_illegal_xml_chars_id, remove_illegal_xml_chars_legal.
Qed.

(** X13: the title written for an entry that is not historical is its
    stripped title after the stripped abbreviation of its journal in
    square brackets and a space. *)
Theorem render_item_fresh_title (item : Entry) :
  default false (is_old item) = false →
  rss_title (render_item item)
  = py "[" ++ remove_illegal_xml_chars (get_journal_abbr (journal item))
    ++ py "] " ++ remove_illegal_xml_chars (title item).
Proof.
  intros Hfresh. unfold render_item. cbn [rss_title].
  unfold display_title. rewrite Hfresh. cbn [negb].
  rewrite !remove_illegal_xml_chars_filter, !List.filter_app.
  reflexivity.
Qed.

Lemma render_item_fresh_title_witness :
  default false (is_old (stamped "B" 9)) = false ∧
  rss_title (render_item (stamped "B" 9))
  = py "[Some Journal] Deep Learning Paper".
Proof.
  split; [reflexivity|].
  exact (render_item_fresh_title (stamped "B" 9) eq_refl).
Defined.

Section RoundTrip.

Variable mktime : struct_time -> outcome Z.

(** X14: an item that was written and is read back is written again as it
    was: when the parser returns the title, link, description, author,
    guid and date of a written item, the historical entry the reader makes
    of them renders to that same item. *)
Theorem render_item_read_back (now : Z) (item : Entry) (raw : RawEntry)
    (t : struct_time) :
  raw_title raw = Some (rss_title (render_item item)) →
  raw_link raw = Some (rss_link (render_item item)) →
  raw_summary raw = Some (rss_description (render_item item)) →
  raw_author raw = Some (rss_author (render_item item)) →
  raw_id raw = Some (rss_guid (render_item item)) →
  raw_published_parsed raw = Some (Some t) →
  mktime t = Returned (rss_pubDate (render_item item)) →
  ∃ old,
    existing_entry mktime now raw = Returned old ∧
    is_old old = Some true ∧
    render_item old = render_item item.
Proof.
  intros Htitle Hlink Hsummary Hauthor Hid Hdate Hmk.
  unfold existing_entry.
  rewrite Htitle, Hlink, Hsummary, Hauthor, Hid, Hdate.
  unfold default, convert_struct_time_to_datetime, mbind, outcome_bind.
  cbn [from_option Datatypes.id]. rewrite Hmk.
  eexists. split; [reflexivity|]. split; [reflexivity|].
  unfold render_item at 1. unfold display_title, default.
  cbn [is_old title link summary journal id pub_date from_option
       Datatypes.id negb].
  unfold render_item.
  cbn [rss_title rss_link rss_description rss_author rss_guid rss_pubDate].
  by rewrite !remove_illegal_xml_chars_twice.
Qed.

End RoundTrip.

Lemma render_item_read_back_witness :
  ∃ old,
    existing_entry mktime_total 0
      {| raw_title := Some (py "[Some Journal] Deep Learning Paper");
         raw_link := Some []; raw_published_parsed :=
           Some (Some {| tm_year := 2024; tm_mon := 1; tm_mday := 1;
                         tm_hour := 0; tm_min := 0; tm_sec := 9;
                         tm_wday := 0; tm_yday := 1; tm_isdst := 0 |});
         raw_updated_parsed := None; raw_summary := Some [];
         raw_description := None; raw_id := Some (py "B");
         raw_author := Some (py "Some Journal") |}
    = Returned old ∧
    is_old old = Some true ∧
    render_item old = render_item (stamped "B" 9).
Proof.
  exact (render_item_read_back mktime_total 0 (stamped "B" 9)
           {| raw_title := Some (py "[Some Journal] Deep Learning Paper");
              raw_link := Some []; raw_published_parsed :=
                Some (Some {| tm_year := 2024; tm_mon := 1; tm_mday := 1;
                              tm_hour := 0; tm_min := 0; tm_sec := 9;
                              tm_wday := 0; tm_yday := 1; tm_isdst := 0 |});
              raw_updated_parsed := None; raw_summary := Some [];
              raw_description := None; raw_id := Some (py "B");
              raw_author := Some (py "Some Journal") |}
           _ eq_refl eq_refl eq_refl eq_refl eq_refl eq_refl eq_refl).
Defined.

(** ** Feed fetcher and history reader *)

Section FetchMore.

Variable mktime : struct_time -> outcome Z.
Variable now : nat -> Z.

Lemma convert_entries_raises (f : nat -> RawEntry -> outcome Entry)
    (l : list RawEntry) (i : nat) (raw : RawEntry) :
  raw ∈ l → (∀ j, ∃ e, f j raw = Raised e) →
  ∃ e, convert_entries f i l = Raised e.
Proof.
  revert i. induction l as [|x l IH]; intros i Hin Hraw.
  - by apply elem_of_nil in Hin.
  - cbn [convert_entries]. unfold mbind, outcome_bind.
    destruct (f i x) as [e|y] eqn:Hx; [eauto|].
    apply elem_of_cons in Hin as [->|Hin].
    + destruct (Hraw i) as [e He]. congruence.
    + destruct (IH (S i) Hin Hraw) as [e ->]. eauto.
Qed.

Lemma convert_entries_returned (f : nat -> RawEntry -> outcome Entry)
    (l : list RawEntry) (i : nat) (es : list Entry) :
  convert_entries f i l = Returned es →
  Forall2 (λ raw e, ∃ j, f j raw = Returned e) l es.
Proof.
  revert i es. induction l as [|x l IH]; intros i es.
  - intros [= <-]. constructor.
  - cbn [convert_entries]. unfold mbind, outcome_bind.
    destruct (f i x) as [e|y] eqn:Hx; [done|].
    destruct (convert_entries f (S i) l) as [e|ys] eqn:Hl; [done|].
    intros [= <-]. constructor; [eauto|]. by apply (IH (S i)).
Qed.

Lemma parse_rss_loop_all_fail (feedparser_parse : nat -> outcome ParsedFeed)
    (rss_url : str) (attempt remaining : nat) :
  (∀ k, ∃ e, parse_attempt mktime now (feedparser_parse k) = Raised e) →
  (parse_rss_loop mktime now feedparser_parse rss_url attempt remaining).2
  = [] ∧
  attempts
    (parse_rss_loop mktime now feedparser_parse rss_url attempt remaining).1
  = remaining.
Proof.
  intros Hfail. revert attempt.
  induction remaining as [|r IH]; intros attempt; [done|].
  cbn [parse_rss_loop]. destruct (Hfail attempt) as [e ->].
  specialize (IH (S attempt)).
  destruct (parse_rss_loop _ _ _ _ _ _) as [trace entries].
  unfold attempts in *. simpl in *. destruct IH as [-> ->]. done.
Qed.

Lemma parse_rss_loop_slept (feedparser_parse : nat -> outcome ParsedFeed)
    (rss_url : str) (attempt remaining : nat) :
  (0 ≤ slept
         (parse_rss_loop mktime now feedparser_parse rss_url attempt
            remaining).1
   ≤ 2 * Z.of_nat remaining)%Z.
Proof.
  revert attempt. induction remaining as [|r IH]; intros attempt.
  - simpl. lia.
  - cbn [parse_rss_loop].
    destruct (parse_attempt _ _ _) as [e|es].
    + specialize (IH (S attempt)).
      destruct (parse_rss_loop _ _ _ _ _ _) as [trace entries].
      cbn [fst] in *.
      change (slept (Parse rss_url :: Print (py "Error parsing " ++ rss_url
                                             ++ py ": " ++ e)
                     :: Sleep 2 :: trace))
        with (2 + slept trace)%Z.
      lia.
    + cbn [fst]. change (slept [Parse rss_url]) with 0%Z. lia.
Qed.

(** X15: with a retry count of zero or less no attempt is made: the fetch
    announces the source and returns the empty list. *)
Theorem parse_rss_no_attempt (feedparser_parse : nat -> outcome ParsedFeed)
    (rss_url : str) (retries : Z) :
  (retries ≤ 0)%Z →
  parse_rss mktime now feedparser_parse rss_url (Some retries)
  = ([Print (py "Fetching: " ++ rss_url ++ py "...")], []).
Proof.
  intros Hle. unfold parse_rss. cbn [default from_option Datatypes.id].
  by rewrite Z2Nat.nonpos.
Qed.

(** X16: a fetch sleeps at most 2 for each attempt it is allowed: with the
    default of 3 attempts never more than 6. *)
Theorem parse_rss_slept (feedparser_parse : nat -> outcome ParsedFeed)
    (rss_url : str) (retries : option Z) :
  (0 ≤ slept (parse_rss mktime now feedparser_parse rss_url retries).1
   ≤ 2 * Z.of_nat (Z.to_nat (default 3 retries)))%Z ∧
  (slept (parse_rss mktime now feedparser_parse rss_url None).1 ≤ 6)%Z.
Proof.
  assert (H : ∀ r,
    (0 ≤ slept (parse_rss mktime now feedparser_parse rss_url r).1
     ≤ 2 * Z.of_nat (Z.to_nat (default 3 r)))%Z).
  { intros r. unfold parse_rss.
    pose proof (parse_rss_loop_slept feedparser_parse rss_url 0
                  (Z.to_nat (default 3%Z r))) as Hloop.
    destruct (parse_rss_loop _ _ _ _ _ _) as [trace entries].
    exact Hloop. }
  split; [apply H|].
  specialize (H None). cbn [default from_option Datatypes.id] in H.
  change (Z.of_nat (Z.to_nat 3)) with 3%Z in H. lia.
Qed.

(** X17: one entry whose date cannot be converted costs the whole source:
    when the parser returns, at every attempt, a feed with an entry whose
    published date makes the conversion raise, every attempt is used up
    and the fetch returns the empty list. *)
Theorem parse_rss_bad_date (feedparser_parse : nat -> outcome ParsedFeed)
    (rss_url : str) (retries : option Z) (feed : ParsedFeed)
    (raw : RawEntry) (t : struct_time) (e : str) :
  (∀ k, feedparser_parse k = Returned feed) →
  raw ∈ entries feed →
  raw_published_parsed raw = Some (Some t) →
  mktime t = Raised e →
  (parse_rss mktime now feedparser_parse rss_url retries).2 = [] ∧
  attempts (parse_rss mktime now feedparser_parse rss_url retries).1
  = Z.to_nat (default 3%Z retries).
Proof.
  intros Hfeed Hin Hdate Hmk.
  assert (Hfail : ∀ k, ∃ e',
    parse_attempt mktime now (feedparser_parse k) = Raised e').
  { intros k. rewrite Hfeed. unfold parse_attempt, mbind, outcome_bind.
    apply convert_entries_raises with (raw := raw); [done|].
    intros j. exists e. unfold fetched_entry. rewrite Hdate.
    unfold convert_struct_time_to_datetime, mbind, outcome_bind.
    by rewrite Hmk. }
  unfold parse_rss.
  destruct (parse_rss_loop_all_fail feedparser_parse rss_url 0
              (Z.to_nat (default 3%Z retries)) Hfail) as [H1 H2].
  destruct (parse_rss_loop _ _ _ _ _ _) as [trace es].
  simpl in *. by split.
Qed.

(** X18: an attempt that succeeds returns one entry for each entry of the
    feed, in the feed's order; each has the feed's title as journal
    (['Unknown Journal'] when the feed has none), is not marked historical,
    and has as identity its id, else its link, else the empty string. *)
Theorem parse_attempt_entries (feed : ParsedFeed) (es : list Entry) :
  parse_attempt mktime now (Returned feed) = Returned es →
  length es = length (entries feed) ∧
  id <$> es = raw_identity <$> entries feed ∧
  Forall (λ e, journal e = default (py "Unknown Journal") (feed_title feed) ∧
               is_old e = None) es.
Proof.
  unfold parse_attempt, mbind at 1, outcome_bind at 1.
  intros H%convert_entries_returned.
  induction H as [|raw e l es' [j Hj] _ IH]; [done|].
  destruct IH as (IH1 & IH2 & IH3).
  unfold fetched_entry, mbind, outcome_bind in Hj.
  destruct (convert_struct_time_to_datetime _ _ _) as [?|d]; [done|].
  injection Hj as <-.
  split; [simpl; by rewrite IH1|].
  split; [rewrite !fmap_cons, IH2; done|].
  constructor; [done|done].
Qed.

End FetchMore.

Lemma parse_rss_no_attempt_witness :
  (-1 ≤ 0)%Z ∧
  parse_rss mktime_total (λ _, 0%Z) unreachable (py "http://feed") (Some (-1)%Z)
  = ([Print (py "Fetching: http://feed...")], []).
Proof.
  split; [lia|].
  apply (parse_rss_no_attempt mktime_total (λ _, 0%Z) unreachable
           (py "http://feed") (-1)). lia.
Defined.

Lemma parse_rss_bad_date_witness :
  (∀ k : nat, (λ _ : nat, Returned misdated_feed) k = Returned misdated_feed) ∧
  dated "B" 10000 ∈ entries misdated_feed ∧
  (parse_rss mktime_bounded (λ _, 0%Z) (λ _, Returned misdated_feed)
     (py "http://feed") None).2 = [] ∧
  attempts
    (parse_rss mktime_bounded (λ _, 0%Z) (λ _, Returned misdated_feed)
       (py "http://feed") None).1 = 3%nat.
Proof.
  assert (H1 : ∀ k : nat,
    (λ _ : nat, Returned misdated_feed) k = Returned misdated_feed)
    by reflexivity.
  assert (H2 : dated "B" 10000 ∈ entries misdated_feed) by (right; left).
  split; [exact H1|]. split; [exact H2|].
  exact (parse_rss_bad_date mktime_bounded (λ _, 0%Z)
           (λ _, Returned misdated_feed) (py "http://feed") None
           misdated_feed (dated "B" 10000) _ _ H1 H2 eq_refl eq_refl).
Defined.

Lemma parse_attempt_entries_witness :
  parse_attempt mktime_total (λ _, 0%Z) (Returned misdated_feed)
  = Returned [ {| title := py "Deep Learning Paper"; link := [];
                  pub_date := 0; summary := [];
                  journal := py "Unknown Journal"; id := py "A";
                  is_old := None |};
               {| title := py "Deep Learning Paper"; link := [];
                  pub_date := 0; summary := [];
                  journal := py "Unknown Journal"; id := py "B";
                  is_old := None |} ] ∧
  id <$> [ {| title := py "Deep Learning Paper"; link := [];
              pub_date := 0; summary := [];
              journal := py "Unknown Journal"; id := py "A";
              is_old := None |};
           {| title := py "Deep Learning Paper"; link := [];
              pub_date := 0; summary := [];
              journal := py "Unknown Journal"; id := py "B";
              is_old := None |} ]
  = raw_identity <$> entries misdated_feed.
Proof.
  split; [reflexivity|].
  exact (proj1 (proj2 (parse_attempt_entries mktime_total (λ _, 0%Z)
                         misdated_feed _ eq_refl))).
Defined.

Section ReaderMore.

Variable mktime : struct_time -> outcome Z.
Variable now : nat -> Z.

Lemma existing_entries_shape (l : list RawEntry) (es : list Entry) :
  Forall2 (λ raw e, ∃ j, existing_entry mktime (now j) raw = Returned e) l es →
  length es = length l ∧
  id <$> es = raw_identity <$> l ∧
  Forall (λ e, is_old e = Some true) es.
Proof.
  induction 1 as [|raw e l es' [j Hj] _ IH]; [done|].
  destruct IH as (IH1 & IH2 & IH3).
  unfold existing_entry, mbind, outcome_bind in Hj.
  destruct (convert_struct_time_to_datetime _ _ _) as [?|d]; [done|].
  injection Hj as <-.
  split; [simpl; by rewrite IH1|].
  split; [rewrite !fmap_cons, IH2; done|].
  by constructor.
Qed.

(** X19: the reader returns all of the previous output or none of it:
    every entry it returns is marked historical, and what it returns for a
    parsed feed is either empty or one entry for each entry of the feed, in
    order, with the same identities. *)
Theorem get_existing_items_all_or_nothing (file_exists : bool)
    (parsed : outcome ParsedFeed) :
  Forall (λ e, is_old e = Some true)
    (get_existing_items mktime now file_exists parsed).2 ∧
  ∀ feed, parsed = Returned feed →
    (get_existing_items mktime now file_exists parsed).2 = [] ∨
    (length (get_existing_items mktime now file_exists parsed).2
     = length (entries feed) ∧
     id <$> (get_existing_items mktime now file_exists parsed).2
     = raw_identity <$> entries feed).
Proof.
  unfold get_existing_items. destruct file_exists; simpl; [|by split; auto].
  destruct parsed as [e|feed]; simpl; [by split|].
  destruct (convert_entries _ _ _) as [e|es] eqn:Hes; simpl; [by split; auto|].
  apply convert_entries_returned, existing_entries_shape in Hes
    as (H1 & H2 & H3).
  split; [done|]. intros feed' [= <-]. by right.
Qed.

(** X20: one entry whose date cannot be converted costs the whole
    history: when an entry of the previous output has a published date
    that makes the conversion raise, the reader reports the error and
    returns the empty list. *)
Theorem get_existing_items_bad_date (feed : ParsedFeed) (raw : RawEntry)
    (t : struct_time) (e : str) :
  raw ∈ entries feed →
  raw_published_parsed raw = Some (Some t) →
  mktime t = Raised e →
  ∃ e',
    (get_existing_items mktime now true (Returned feed)).2 = [] ∧
    Print (py "Error reading existing file: " ++ e')
    ∈ (get_existing_items mktime now true (Returned feed)).1.
Proof.
  intros Hin Hdate Hmk.
  destruct (convert_entries_raises (λ i, existing_entry mktime (now i))
              (entries feed) 0 raw Hin) as [e' He'].
  { intros j. exists e. unfold existing_entry. rewrite Hdate.
    unfold default, convert_struct_time_to_datetime, mbind, outcome_bind.
    cbn [from_option Datatypes.id]. by rewrite Hmk. }
  exists e'. unfold get_existing_items. cbn [negb]. rewrite He'.
  split; [done|]. cbn [fst].
  rewrite !elem_of_app. right. right. apply list_elem_of_here.
Qed.

End ReaderMore.

Lemma get_existing_items_bad_date_witness :
  dated "B" 10000 ∈ entries misdated_feed ∧
  ∃ e',
    (get_existing_items mktime_bounded (λ _, 0%Z) true
       (Returned misdated_feed)).2 = [] ∧
    Print (py "Error reading existing file: " ++ e')
    ∈ (get_existing_items mktime_bounded (λ _, 0%Z) true
         (Returned misdated_feed)).1.
Proof.
  assert (H : dated "B" 10000 ∈ entries misdated_feed) by (right; left).
  split; [exact H|].
  exact (get_existing_items_bad_date mktime_bounded (λ _, 0%Z)
           misdated_feed (dated "B" 10000) _ _ H eq_refl eq_refl).
Defined.

(** ** Configuration *)

Lemma lstrip_no_leading_space (s : str) : no_leading_space (lstrip s).
Proof.
  induction s as [|c s IH]; simpl; [done|].
  by destruct (is_space c) eqn:Hc.
Qed.

Lemma lstrip_suffix (s : str) : ∃ pre, s = pre ++ lstrip s.
Proof.
  induction s as [|c s [pre IH]]; simpl; [by exists []|].
  destruct (is_space c).
  - exists (c :: pre). simpl. by f_equal.
  - by exists [].
Qed.

Lemma lstrip_fixed (s : str) : no_leading_space s → lstrip s = s.
Proof. destruct s as [|c s]; simpl; [done|]. by intros ->. Qed.

Lemma strip_fixed (s : str) : strip (strip s) = strip s.
Proof.
  unfold strip, rstrip.
  pose proof (lstrip_no_leading_space s) as Ht.
  set (t := lstrip s) in *.
  pose proof (lstrip_no_leading_space (rev t)) as Hw.
  destruct (lstrip_suffix (rev t)) as [pre Hpre].
  set (w := lstrip (rev t)) in *.
  assert (Hu : no_leading_space (rev w)).
  { apply (f_equal (@rev N)) in Hpre. rewrite rev_involutive, rev_app_distr in Hpre.
    rewrite Hpre in Ht. by destruct (rev w). }
  by rewrite (lstrip_fixed (rev w) Hu), rev_involutive, (lstrip_fixed w Hw).
Qed.

Lemma elem_of_stripped (g : str -> bool) (pieces : list str) (x : str) :
  (∀ line, g line = true → truthy (strip line) = true) →
  x ∈ strip <$> List.filter g pieces →
  x ≠ [] ∧ strip x = x.
Proof.
  intros Hg [line [-> [_ Hline]%list_elem_of_In%filter_In]]%list_elem_of_fmap.
  apply Hg in Hline. split; [by destruct (strip line)|apply strip_fixed].
Qed.

(** X21: whatever it is loaded from, a configuration holds only items that
    are not empty and have no white space at either end. *)
Theorem load_config_items_trimmed (environ files : gmap (list N) (list N))
    (filename : str) (env_var_name : option str) (x : str) :
  x ∈ (load_config environ files filename env_var_name).2 →
  x ≠ [] ∧ strip x = x.
Proof.
  unfold load_config, stripped_items.
  assert (Hfile : x ∈ (match files !! filename with
                       | Some content =>
                           ([Print (py "Loading config from local file: "
                                    ++ filename)],
                            strip <$>
                              List.filter
                                (λ line, truthy (strip line)
                                         && negb (startswith line (py "#")))
                                (file_lines content))
                       | None => ([], [])
                       end).2 → x ≠ [] ∧ strip x = x).
  { destruct (files !! filename); simpl.
    - apply elem_of_stripped. by intros line [? _]%andb_true_iff.
    - by intros ?%elem_of_nil. }
  destruct env_var_name as [name|]; [|done].
  destruct (truthy name); [|done].
  destruct (environ !! name) as [value|]; [|done].
  destruct (truthy value); [|done].
  cbn [snd]. destruct (contains value [10]); by apply elem_of_stripped.
Qed.

Lemma load_config_items_trimmed_witness :
  py "# dl"
  ∈ (load_config {[ py "RSS_KEYWORDS" := py "# dl ; gan ;;" ]} ∅
       (py "keywords.dat") (Some (py "RSS_KEYWORDS"))).2 ∧
  py "# dl" ≠ [] ∧ strip (py "# dl") = py "# dl".
Proof.
  assert (H : py "# dl"
    ∈ (load_config {[ py "RSS_KEYWORDS" := py "# dl ; gan ;;" ]} ∅
         (py "keywords.dat") (Some (py "RSS_KEYWORDS"))).2)
    by by_computation.
  split; [exact H|].
  exact (load_config_items_trimmed _ _ _ _ _ H).
Defined.

(** X22: the environment variable, when it is set and not empty, is the
    only source of a configuration: the files play no part; when it is
    unset or empty the configuration is the one of the file alone. *)
Theorem load_config_precedence (environ files files' : gmap (list N) (list N))
    (filename name : str) :
  (∀ content,
     truthy name = true → environ !! name = Some content →
     truthy content = true →
     load_config environ files filename (Some name)
     = load_config environ files' filename (Some name)) ∧
  (default [] (environ !! name) = [] →
   load_config environ files filename (Some name)
   = load_config ∅ files filename None).
Proof.
  unfold load_config. split.
  - intros content -> -> ->. done.
  - intros Hunset. destruct (truthy name); [|done].
    destruct (environ !! name) as [value|]; [|done].
    simpl in Hunset. by rewrite Hunset.
Qed.

Lemma load_config_precedence_witness :
  load_config {[ py "RSS_KEYWORDS" := py "gan" ]}
    {[ py "keywords.dat" := py "unet" ]} (py "keywords.dat")
    (Some (py "RSS_KEYWORDS"))
  = load_config {[ py "RSS_KEYWORDS" := py "gan" ]} ∅ (py "keywords.dat")
      (Some (py "RSS_KEYWORDS")) ∧
  load_config {[ py "RSS_KEYWORDS" := [] ]}
    {[ py "keywords.dat" := py "unet" ]} (py "keywords.dat")
    (Some (py "RSS_KEYWORDS"))
  = load_config ∅ {[ py "keywords.dat" := py "unet" ]} (py "keywords.dat")
      None.
Proof.
  split.
  - apply (proj1 (load_config_precedence {[ py "RSS_KEYWORDS" := py "gan" ]}
                    {[ py "keywords.dat" := py "unet" ]} ∅ (py "keywords.dat")
                    (py "RSS_KEYWORDS")) (py "gan"));
      [reflexivity|apply lookup_singleton_eq|reflexivity].
  - apply (proj2 (load_config_precedence {[ py "RSS_KEYWORDS" := [] ]}
                    {[ py "keywords.dat" := py "unet" ]} ∅ (py "keywords.dat")
                    (py "RSS_KEYWORDS"))).
    by rewrite lookup_singleton_eq.
Defined.

(** ** Entry point *)

Section MainMore.

Variable lower : str -> str.

Lemma main_some (rss_urls queries : list str) (existing_entries : list Entry)
    (fetch : nat -> str -> list Entry) (items : list Item) :
  main lower rss_urls queries existing_entries fetch = Some items →
  rss_urls ≠ [] ∧ queries ≠ [] ∧
  items = generate_rss_xml
            (all_entries
               (merge lower existing_entries (imap fetch rss_urls) queries)).
Proof.
  unfold main.
  case_bool_decide as Hu; [|done]. case_bool_decide as Hq; [|done].
  cbn [negb orb]. by intros [= <-].
Qed.

(** X23: a run writes nothing of its own making: it needs a source and a
    query, writes at most [MAX_ITEMS] items, and every item it writes is an
    existing entry or an entry fetched from one of the sources that
    matches a query. *)
Theorem main_items_origin (rss_urls queries : list str)
    (existing_entries : list Entry) (fetch : nat -> str -> list Entry)
    (items : list Item) :
  main lower rss_urls queries existing_entries fetch = Some items →
  rss_urls ≠ [] ∧ queries ≠ [] ∧
  (length items ≤ MAX_ITEMS)%nat ∧
  ∀ item, item ∈ items →
    ∃ entry, item = render_item entry ∧
      (entry ∈ existing_entries ∨
       (match_entry lower entry queries = true ∧
        ∃ i url, rss_urls !! i = Some url ∧ entry ∈ fetch i url)).
Proof.
  intros (Hu & Hq & ->)%main_some.
  split; [done|]. split; [done|]. split.
  { unfold generate_rss_xml, select_items.
    rewrite length_fmap, length_take. lia. }
  intros item [entry [-> Hin]]%list_elem_of_fmap.
  exists entry. split; [done|].
  unfold select_items in Hin.
  apply (sublist_subseteq _ _ (sublist_take _ _)) in Hin.
  rewrite sort_desc_Permutation, merge_concat in Hin.
  destruct (merge_entries_added lower queries (concat (imap fetch rss_urls))
              (merge_init existing_entries)) as (added & Heq & Hsub & Hall).
  rewrite Heq in Hin. simpl in Hin.
  apply elem_of_app in Hin as [Hin|Hin]; [by left|]. right.
  rewrite Forall_forall in Hall. split; [by apply Hall|].
  apply (sublist_subseteq _ _ Hsub), list_elem_of_In, in_concat in Hin
    as (es & Hes%list_elem_of_In & Hentry%list_elem_of_In).
  apply elem_of_lookup_imap in Hes as (i & url & -> & Hurl). eauto.
Qed.

(** X24: history is lost to the cut only: when the existing and the
    fetched entries together are no more than [MAX_ITEMS], a run writes
    every existing entry. *)
Theorem main_keeps_history (rss_urls queries : list str)
    (existing_entries : list Entry) (fetch : nat -> str -> list Entry)
    (items : list Item) (entry : Entry) :
  main lower rss_urls queries existing_entries fetch = Some items →
  (length existing_entries + length (concat (imap fetch rss_urls))
   ≤ MAX_ITEMS)%nat →
  entry ∈ existing_entries →
  render_item entry ∈ items.
Proof.
  intros (Hu & Hq & ->)%main_some Hroom Hin.
  unfold generate_rss_xml, select_items.
  apply list_elem_of_fmap_2.
  destruct (merge_entries_added lower queries (concat (imap fetch rss_urls))
              (merge_init existing_entries)) as (added & Heq & Hsub & _).
  rewrite <- merge_concat in Heq. simpl in Heq.
  apply sublist_length in Hsub.
  rewrite take_ge.
  - rewrite sort_desc_Permutation, Heq. apply elem_of_app. by left.
  - rewrite sort_desc_Permutation, Heq, length_app. lia.
Qed.

End MainMore.

Lemma main_items_origin_witness :
  main ascii_lower [py "http://feed"] [py "deep AND learning"]
    [stamped "A" 5] (λ _ _, [stamped "A" 7; stamped "B" 9; stamped "B" 3])
  = Some (render_item <$> [stamped "B" 9; stamped "A" 5]) ∧
  (length (render_item <$> [stamped "B" 9; stamped "A" 5]) ≤ MAX_ITEMS)%nat.
Proof.
  assert (H : main ascii_lower [py "http://feed"] [py "deep AND learning"]
                [stamped "A" 5]
                (λ _ _, [stamped "A" 7; stamped "B" 9; stamped "B" 3])
              = Some (render_item <$> [stamped "B" 9; stamped "A" 5]))
    by (by vm_compute).
  split; [exact H|].
  exact (proj1 (proj2 (proj2 (main_items_origin ascii_lower _ _ _ _ _ H)))).
Defined.

Lemma main_keeps_history_witness :
  main ascii_lower [py "http://feed"] [py "deep AND learning"]
    [stamped "A" 5] (λ _ _, [stamped "A" 7; stamped "B" 9; stamped "B" 3])
  = Some (render_item <$> [stamped "B" 9; stamped "A" 5]) ∧
  stamped "A" 5 ∈ [stamped "A" 5] ∧
  render_item (stamped "A" 5)
  ∈ render_item <$> [stamped "B" 9; stamped "A" 5].
Proof.
  assert (H : main ascii_lower [py "http://feed"] [py "deep AND learning"]
                [stamped "A" 5]
                (λ _ _, [stamped "A" 7; stamped "B" 9; stamped "B" 3])
              = Some (render_item <$> [stamped "B" 9; stamped "A" 5]))
    by (by vm_compute).
  assert (Hin : stamped "A" 5 ∈ [stamped "A" 5]) by apply list_elem_of_here.
  split; [exact H|]. split; [exact Hin|].
  apply (main_keeps_history ascii_lower _ _ _ _ _ _ H); [|exact Hin].
  vm_compute. lia.
Defined.

(** ** Abbreviation of labels that carry the marker or the prefix *)

Lemma startswith_app_long (a b p : str) :
  (length p ≤ length a)%nat → startswith (a ++ b) p = startswith a p.
Proof.
  revert a. induction p as [|x p IH]; intros a Hlen.
  - by rewrite !startswith_nil.
  - destruct a as [|y a]; simpl in *; [lia|].
    rewrite IH; [done|lia].
Qed.

Lemma startswith_app_short (a b p : str) :
  (length a < length p)%nat → startswith (a ++ b) p = true →
  a = take (length a) p.
Proof.
  revert p. induction a as [|y a IH]; intros p Hlen Hp; [done|].
  destruct p as [|x p]; simpl in *; [lia|].
  apply andb_true_iff in Hp as [->%N.eqb_eq Hp].
  f_equal. apply (IH p); [lia|done].
Qed.

Lemma marker_no_straddle (a : str) :
  a ≠ [] → startswith a TOC_SUFFIX = false →
  startswith (a ++ TOC_SUFFIX) TOC_SUFFIX = false.
Proof.
  intros Hne Ha.
  destruct (le_lt_dec (length TOC_SUFFIX) (length a)) as [Hlong|Hshort].
  - by rewrite startswith_app_long.
  - destruct (startswith (a ++ TOC_SUFFIX) TOC_SUFFIX) eqn:E; [|done].
    pose proof (startswith_app_short _ _ _ Hshort E) as Heq.
    assert (Hk : (0 < length a)%nat) by (destruct a; [done|simpl; lia]).
    change (length TOC_SUFFIX) with 10%nat in Hshort.
    rewrite Heq in E. revert Hk Hshort E.
    generalize (length a). intros k Hk Hshort.
    do 10 (destruct k as [|k]; [first [lia | by vm_compute]|]). lia.
Qed.

Lemma str_replace_marker_end (name : str) :
  contains name TOC_SUFFIX = false →
  str_replace TOC_SUFFIX [] (name ++ TOC_SUFFIX) = name.
Proof.
  unfold str_replace. induction name as [|c name IH]; intros Habs.
  - by vm_compute.
  - rewrite contains_cons in Habs. apply orb_false_iff in Habs as [H1 H2].
    rewrite <- app_comm_cons. cbn [str_replace_from].
    rewrite app_comm_cons, (marker_no_straddle (c :: name)); [|done|done].
    f_equal. by apply IH.
Qed.

Lemma str_replace_skip (old new a s : str) :
  str_replace_from old new (length a) (a ++ s) = str_replace_from old new 0 s.
Proof. induction a as [|c a IH]; [done|]. simpl. exact IH. Qed.

Lemma str_replace_at_start (old s : str) :
  old ≠ [] → contains s old = false → str_replace old [] (old ++ s) = s.
Proof.
  intros Hne Habs. destruct old as [|c old]; [done|].
  unfold str_replace. rewrite <- app_comm_cons. cbn [str_replace_from].
  assert (Hstart : startswith (c :: old ++ s) (c :: old) = true).
  { apply startswith_app. by exists s. }
  rewrite Hstart.
  replace (length (c :: old) - 1)%nat with (length old) by (simpl; lia).
  cbn [app]. rewrite str_replace_skip.
  by apply str_replace_absent.
Qed.

(** X25: the marker [" - new TOC"] at the end of a label is ignored: a
    label that does not contain the marker has the same abbreviation with
    the marker after it. *)
Theorem get_journal_abbr_marker_ignored (name : str) :
  contains name TOC_SUFFIX = false →
  get_journal_abbr (name ++ TOC_SUFFIX) = get_journal_abbr name.
Proof.
  intros Habs. unfold get_journal_abbr.
  by rewrite (str_replace_marker_end name Habs),
    (str_replace_absent TOC_SUFFIX [] name Habs).
Qed.

Lemma get_journal_abbr_marker_ignored_witness :
  contains (py "Nature Methods") TOC_SUFFIX = false ∧
  get_journal_abbr (py "Nature Methods - new TOC")
  = get_journal_abbr (py "Nature Methods").
Proof.
  split; [reflexivity|].
  exact (get_journal_abbr_marker_ignored (py "Nature Methods") eq_refl).
Defined.

(** X26: a journal of the publisher that is not in the table is
    abbreviated by its own name: for a label made of the prefix
    ["ScienceDirect Publication: "] and a name, where the label is not in
    the table and holds no marker and the name does not hold the prefix,
    the abbreviation is the first 15 characters of the name. *)
Theorem get_journal_abbr_prefix_removed (name : str) :
  contains (SD_PREFIX ++ name) TOC_SUFFIX = false →
  JOURNAL_ABBR !! (SD_PREFIX ++ name) = None →
  contains name SD_PREFIX = false →
  get_journal_abbr (SD_PREFIX ++ name) = take 15 name.
Proof.
  intros Hmarker Htable Hname. unfold get_journal_abbr.
  rewrite (str_replace_absent _ _ _ Hmarker), Htable.
  rewrite str_replace_at_start; [|done|done].
  destruct (Nat.ltb_spec 15 (length name)); [done|].
  by rewrite take_ge.
Qed.

Lemma get_journal_abbr_prefix_removed_witness :
  contains (SD_PREFIX ++ py "Journal of Biomedical Informatics") TOC_SUFFIX
  = false ∧
  JOURNAL_ABBR !! (SD_PREFIX ++ py "Journal of Biomedical Informatics") = None ∧
  contains (py "Journal of Biomedical Informatics") SD_PREFIX = false ∧
  get_journal_abbr (py "ScienceDirect Publication: Journal of Biomedical Informatics")
  = py "Journal of Biom".
Proof.
  assert (H : JOURNAL_ABBR
                !! (SD_PREFIX ++ py "Journal of Biomedical Informatics")
              = None) by (by vm_compute).
  split; [reflexivity|]. split; [exact H|]. split; [reflexivity|].
  exact (get_journal_abbr_prefix_removed
           (py "Journal of Biomedical Informatics") eq_refl H eq_refl).
Defined.
